(** * The game-engine tool scripts: asset pipeline and shader compiler

    A shallow embedding of
    - [tools/asset_pipeline/process_assets.py] (class [AssetProcessor], [main]);
    - [tools/shader_compiler/compile_shaders.py] ([compile_shader], [main]).

    Both scripts are sequential Python programs whose only effects are on
    the file system, on standard output and (for [AssetProcessor]) on the
    object's [manifest] field.  The embedding therefore threads one process
    state through every call; a Python exception ends the computation with
    the state reached so far, as an uncaught exception does.

    The file system is a tree of directories and regular files with
    case-sensitive names, as a POSIX file system shows it to a process
    that meets no symbolic link and no file with a second hard link.  A
    regular file has its bytes and the owner's write permission, which
    [shutil.copy2] carries from the source to the copy; the process is an
    unprivileged user that owns the files and may read them, search and
    write the directories, and whose [umask] leaves its own write
    permission on what it creates. *)

From Stdlib Require Import Strings.String Strings.Ascii Strings.Byte.
From Stdlib Require Import List Bool Arith Lia DecimalString.
Import ListNotations.
Local Open Scope string_scope.
Local Open Scope list_scope.
Local Open Scope nat_scope.

Set Warnings "-register-all".

(** ** Python strings and [pathlib] names *)

Module PyStr.

(** Characters are code points below 256 (ASCII and Latin-1). *)
Definition quote : ascii := ascii_of_nat 34.
Definition newline : ascii := ascii_of_nat 10.

(** [str.lower] on one character: exact on ASCII.  A Latin-1 letter is
    left as it is, where Python gives its Latin-1 lower-case form; no
    membership test of the scripts can tell the difference, since the
    extension lists hold ASCII only. *)
Definition lower_char (c : ascii) : ascii :=
  let n := nat_of_ascii c in
  if (65 <=? n) && (n <=? 90) then ascii_of_nat (n + 32) else c.

Fixpoint lower (s : string) : string :=
  match s with
  | EmptyString => EmptyString
  | String c r => String (lower_char c) (lower r)
  end.

(** [s.rfind(c)]: the index of the last occurrence, [None] for -1. *)
Fixpoint rfind (c : ascii) (s : string) : option nat :=
  match s with
  | EmptyString => None
  | String a r =>
      match rfind c r with
      | Some i => Some (S i)
      | None => if Ascii.eqb a c then Some 0 else None
      end
  end.

(** [s[i:]] *)
Fixpoint drop (i : nat) (s : string) : string :=
  match i, s with
  | O, _ => s
  | S i', EmptyString => EmptyString
  | S i', String _ r => drop i' r
  end.

(** [s[:i]] *)
Fixpoint take (i : nat) (s : string) : string :=
  match i, s with
  | O, _ => EmptyString
  | S i', EmptyString => EmptyString
  | S i', String a r => String a (take i' r)
  end.

(** [s.endswith(t)] *)
Definition endswith (s t : string) : bool :=
  String.eqb (drop (String.length s - String.length t) s) t
  && (String.length t <=? String.length s).

(** [PurePath.suffix] of a final path component:
    [i = name.rfind('.'); name[i:] if 0 < i < len(name) - 1 else ''] *)
Definition suffix (name : string) : string :=
  match rfind "." name with
  | Some i =>
      if (0 <? i) && (i <? String.length name - 1) then drop i name else ""
  | None => ""
  end.

(** [PurePath.with_suffix(suffix)] on the final component, for a valid
    non-empty [new] suffix: the old suffix is replaced, or the new one
    appended when there is none. *)
Definition with_suffix (name new : string) : string :=
  let old := suffix name in
  match old with
  | EmptyString => (name ++ new)%string
  | _ => (take (String.length name - String.length old) name ++ new)%string
  end.

(** [x in [..]] for a list of strings. *)
Fixpoint mem (x : string) (l : list string) : bool :=
  match l with
  | [] => false
  | y :: r => String.eqb x y || mem x r
  end.

(** [str(n)] for a non-negative integer. *)
Definition of_nat (n : nat) : string :=
  NilEmpty.string_of_uint (Nat.to_uint n).

End PyStr.

(** ** The file system *)

Module FS.

(** A path is the list of its components below the process's working
    directory; [str(path)] joins them with the POSIX separator. *)
Definition path := list string.

Definition str (p : path) : string :=
  match p with
  | [] => "."
  | _ => String.concat "/" p
  end.

(** [path / name] *)
Definition child (p : path) (name : string) : path := p ++ [name].

(** [PurePath.name] *)
Definition name (p : path) : string := List.last p "".

(** A regular file: its bytes and, of its permission bits, the owner's
    write permission. *)
Record file : Type := mkFile {
  writable : bool;
  data : list byte
}.

(** A file that may be written, as [open(p, 'w')] creates it, and one
    that may not (mode [0444], say). *)
Definition rw (d : list byte) : file := mkFile true d.
Definition ro (d : list byte) : file := mkFile false d.

(** A directory holds its entries in the order in which they were made;
    [os.scandir] yields them in an order of the file system's own, for
    which this order stands. *)
Inductive node : Type :=
| File (f : file)
| Dir (entries : list (string * node)).

(** The exceptions the scripts' library calls raise. *)
Inductive exn : Type :=
| FileNotFoundError
| FileExistsError
| NotADirectoryError
| IsADirectoryError
| SameFileError
| PermissionError
| ValueError.

Definition result (A : Type) : Type := (exn + A)%type.

Fixpoint assoc (x : string) (es : list (string * node)) : option node :=
  match es with
  | [] => None
  | (y, n) :: r => if String.eqb x y then Some n else assoc x r
  end.

(** Replace the entry named [x], or add it after the others. *)
Fixpoint set (x : string) (n : node) (es : list (string * node))
  : list (string * node) :=
  match es with
  | [] => [(x, n)]
  | (y, m) :: r => if String.eqb x y then (y, n) :: r else (y, m) :: set x n r
  end.

Fixpoint lookup (p : path) (n : node) : option node :=
  match p with
  | [] => Some n
  | x :: p' =>
      match n with
      | File _ => None
      | Dir es =>
          match assoc x es with
          | Some c => lookup p' c
          | None => None
          end
      end
  end.

(** [Path.exists()], [Path.is_dir()], [Path.is_file()] *)
Definition exists_ (p : path) (fs : node) : bool :=
  match lookup p fs with Some _ => true | None => false end.

Definition is_dir (p : path) (fs : node) : bool :=
  match lookup p fs with Some (Dir _) => true | _ => false end.

Definition is_file (p : path) (fs : node) : bool :=
  match lookup p fs with Some (File _) => true | _ => false end.

(** The entries a directory has: a name stands for the first entry that
    carries it, as it does for [lookup]. *)
Fixpoint own (es : list (string * node)) : list (string * node) :=
  match es with
  | [] => []
  | (x, n) :: r => (x, n) :: filter (fun e => negb (String.eqb (fst e) x)) (own r)
  end.

(** The entries [os.scandir(p)] yields, each name once; none when [p] is
    no directory. *)
Definition listdir (p : path) (fs : node) : list (string * node) :=
  match lookup p fs with Some (Dir es) => own es | _ => [] end.

(** [os.mkdir(p)], with [Path.mkdir]'s [exist_ok]: an existing directory
    is accepted when [exist_ok] holds, an existing file never is. *)
Fixpoint mkdir (exist_ok : bool) (p : path) (n : node) : result node :=
  match p with
  | [] =>
      match n with
      | Dir _ => if exist_ok then inr n else inl FileExistsError
      | File _ => inl FileExistsError
      end
  | x :: p' =>
      match n with
      | File _ => inl NotADirectoryError
      | Dir es =>
          match assoc x es, p' with
          | None, [] => inr (Dir (set x (Dir []) es))
          | None, _ :: _ => inl FileNotFoundError
          | Some c, _ =>
              match mkdir exist_ok p' c with
              | inl e => inl e
              | inr c' => inr (Dir (set x c' es))
              end
          end
      end
  end.

(** [Path.mkdir(parents=True, exist_ok=True)]: missing ancestors are
    created; a file in the way raises. *)
Fixpoint mkdir_parents (p : path) (n : node) : result node :=
  match p with
  | [] =>
      match n with
      | Dir _ => inr n
      | File _ => inl FileExistsError
      end
  | x :: p' =>
      match n with
      | File _ => inl NotADirectoryError
      | Dir es =>
          match mkdir_parents p'
                  (match assoc x es with Some c => c | None => Dir [] end) with
          | inl e => inl e
          | inr c' => inr (Dir (set x c' es))
          end
      end
  end.

(** [open(p, 'rb')]: the regular file at [p], with what [read()] and
    [os.fstat] give for it. *)
Fixpoint read (p : path) (n : node) : result file :=
  match p with
  | [] =>
      match n with
      | File d => inr d
      | Dir _ => inl IsADirectoryError
      end
  | x :: p' =>
      match n with
      | File _ => inl NotADirectoryError
      | Dir es =>
          match assoc x es with
          | Some c => read p' c
          | None => inl FileNotFoundError
          end
      end
  end.

(** The file at [p] is created or, when it exists, replaced by [d].  A
    directory at [p], a missing parent and a file in the way raise what
    [open(p, 'w')] raises for them. *)
Fixpoint store (p : path) (d : file) (n : node) : result node :=
  match p with
  | [] =>
      match n with
      | File _ => inr (File d)
      | Dir _ => inl IsADirectoryError
      end
  | x :: p' =>
      match n with
      | File _ => inl NotADirectoryError
      | Dir es =>
          match assoc x es, p' with
          | None, [] => inr (Dir (set x (File d) es))
          | None, _ :: _ => inl FileNotFoundError
          | Some c, _ =>
              match store p' d c with
              | inl e => inl e
              | inr c' => inr (Dir (set x c' es))
              end
          end
      end
  end.

(** [open(p, 'w')] is refused: [p] is a regular file without write
    permission. *)
Definition locked (p : path) (n : node) : bool :=
  match lookup p n with
  | Some (File f) => negb (writable f)
  | _ => false
  end.

(** [f.write(d)] and [f.close()] for the file open at [p]: the file gets
    the bytes and keeps its permission bits. *)
Definition fill (p : path) (d : list byte) (n : node) : result node :=
  match read p n with
  | inr f => store p (mkFile (writable f) d) n
  | inl e => inl e
  end.

(** [os.chmod(dst, os.stat(src).st_mode)]: the destination gets the
    permission bits of the source. *)
Definition copymode (src dst : path) (n : node) : result node :=
  match read src n, read dst n with
  | inr f, inr g => store dst (mkFile (writable f) (data g)) n
  | inl e, _ => inl e
  | _, inl e => inl e
  end.

Definition path_eqb (p q : path) : bool :=
  if list_eq_dec string_dec p q then true else false.

(** Where [shutil.copy2(src, dst)] writes: a directory [dst] receives
    the file under the source's name. *)
Definition copy2_target (src dst : path) (fs : node) : path :=
  if is_dir dst fs then child dst (name src) else dst.

(** [Path.glob('*')]: every entry of the directory, as a path. *)
Definition glob_star (p : path) (fs : node) : list path :=
  map (fun e => child p (fst e)) (listdir p fs).

(** [Path.glob('**/*' + ext)] below a node: the matching entries of the
    directory itself, then those of each sub-directory in turn. *)
Fixpoint rglob_node (ext : string) (prefix : path) (n : node) : list path :=
  match n with
  | File _ => []
  | Dir es =>
      map (fun e => child prefix (fst e))
          (filter (fun e => PyStr.endswith (fst e) ext) es)
      ++ (fix subdirs (l : list (string * node)) : list path :=
            match l with
            | [] => []
            | (x, c) :: r => rglob_node ext (child prefix x) c ++ subdirs r
            end) es
  end.

(** [yielded]: a path is yielded the first time it is found only. *)
Fixpoint unique (yielded l : list path) : list path :=
  match l with
  | [] => []
  | p :: r =>
      if existsb (path_eqb p) yielded then unique yielded r
      else p :: unique (p :: yielded) r
  end.

Definition rglob (ext : string) (p : path) (fs : node) : list path :=
  match lookup p fs with
  | Some n => unique [] (rglob_node ext p n)
  | None => []
  end.

(** Induction over a tree, with the hypothesis for every entry of a
    directory. *)
Fixpoint node_ind' (P : node -> Prop)
         (Pf : forall d, P (File d))
         (Pd : forall es, Forall (fun e => P (snd e)) es -> P (Dir es))
         (n : node) : P n :=
  match n with
  | File d => Pf d
  | Dir es =>
      Pd es ((fix all (l : list (string * node)) : Forall (fun e => P (snd e)) l :=
                match l with
                | [] => Forall_nil _
                | e :: r => Forall_cons e (node_ind' P Pf Pd (snd e)) (all r)
                end) es)
  end.

(** [PurePath.relative_to(base)] *)
Fixpoint relative_to (p base : path) : result path :=
  match base, p with
  | [], _ => inr p
  | b :: base', x :: p' =>
      if String.eqb b x then relative_to p' base' else inl ValueError
  | _ :: _, [] => inl ValueError
  end.

(** [PurePath.with_suffix(new)]; a path with an empty name raises. *)
Definition with_suffix (p : path) (new : string) : result path :=
  match p with
  | [] => inl ValueError
  | _ => inr (removelast p ++ [PyStr.with_suffix (name p) new])
  end.

End FS.

(** ** [json.dump(obj, f, indent=2)] *)

Module Json.

Inductive json : Type :=
| JStr (s : string)
| JArr (items : list json)
| JObj (members : list (string * json)).

Definition hex_digit (n : nat) : ascii :=
  match String.get n "0123456789abcdef" with
  | Some c => c
  | None => "0"%char
  end.

(** One character of a string under [ensure_ascii=True]: the short
    escapes, printable ASCII as it is, [\u00xx] otherwise. *)
Definition escape (c : ascii) : string :=
  let n := nat_of_ascii c in
  if n =? 34 then String "\" (String PyStr.quote "")
  else if n =? 92 then "\\"
  else if n =? 10 then "\n"
  else if n =? 13 then "\r"
  else if n =? 9 then "\t"
  else if n =? 12 then "\f"
  else if n =? 8 then "\b"
  else if (32 <=? n) && (n <=? 126) then String c ""
  else ("\u00" ++ String (hex_digit (n / 16)) (String (hex_digit (n mod 16)) ""))%string.

Fixpoint escape_all (s : string) : string :=
  match s with
  | EmptyString => EmptyString
  | String c r => (escape c ++ escape_all r)%string
  end.

Definition encode_str (s : string) : string :=
  String PyStr.quote (escape_all s ++ String PyStr.quote "")%string.

Fixpoint spaces (n : nat) : string :=
  match n with
  | O => EmptyString
  | S n' => String " " (spaces n')
  end.

(** ['\n' + ' ' * (indent * level)] with [indent = 2] *)
Definition newline_indent (level : nat) : string :=
  String PyStr.newline (spaces (2 * level)).

Fixpoint encode (level : nat) (j : json) : string :=
  match j with
  | JStr s => encode_str s
  | JArr [] => "[]"
  | JArr l =>
      ("[" ++ newline_indent (S level)
       ++ String.concat ("," ++ newline_indent (S level))
            (map (encode (S level)) l)
       ++ newline_indent level ++ "]")%string
  | JObj [] => "{}"
  | JObj l =>
      ("{" ++ newline_indent (S level)
       ++ String.concat ("," ++ newline_indent (S level))
            (map (fun kv => encode_str (fst kv) ++ ": " ++ encode (S level) (snd kv)) l)
       ++ newline_indent level ++ "}")%string
  end.

Definition dumps (j : json) : string := encode 0 j.

End Json.

(** ** The running process *)

Module Py.

Import FS.

(** What a script can change: the file system, the lines printed so far,
    and the [manifest["assets"]] list of the [AssetProcessor] object.
    [copy_calls] is instrumentation: the arguments of every call of
    [shutil.copy2] entered so far, in order. *)
Record state : Type := mkState {
  fs : node;
  stdout : list string;
  manifest_assets : list Json.json;
  copy_calls : list (path * path)
}.

(** A computation runs from a state to a state and either a value or the
    exception it raised; the effects made before a [raise] stay. *)
Definition M (A : Type) : Type := state -> state * result A.

Definition ret {A} (a : A) : M A := fun s => (s, inr a).

Definition raise {A} (e : exn) : M A := fun s => (s, inl e).

Definition bind {A B} (m : M A) (k : A -> M B) : M B :=
  fun s =>
    match m s with
    | (s', inr a) => k a s'
    | (s', inl e) => (s', inl e)
    end.

Declare Scope py_scope.
Delimit Scope py_scope with py.
Notation "x <- m ;; k" := (bind m (fun x => k))
  (at level 61, m at next level, right associativity) : py_scope.
Notation "m ;; k" := (bind m (fun _ => k))
  (at level 61, right associativity) : py_scope.
Local Open Scope py_scope.

(** [print(line)] *)
Definition print (line : string) : M unit :=
  fun s => (mkState (fs s) (stdout s ++ [line]) (manifest_assets s) (copy_calls s),
            inr tt).

(** Read the file system. *)
Definition ask {A} (f : node -> A) : M A := fun s => (s, inr (f (fs s))).

(** A library call that changes the file system or raises. *)
Definition sys (f : node -> result node) : M unit :=
  fun s =>
    match f (fs s) with
    | inr fs' => (mkState fs' (stdout s) (manifest_assets s) (copy_calls s), inr tt)
    | inl e => (s, inl e)
    end.

Definition lift {A} (r : result A) : M A :=
  match r with inr a => ret a | inl e => raise e end.

(** [for x in l: body(x)] *)
Fixpoint for_each {A} (l : list A) (body : A -> M unit) : M unit :=
  match l with
  | [] => ret tt
  | x :: r => body x ;; for_each r body
  end.

(** The statements of a block in order; an exception ends the block. *)
Fixpoint block (l : list (M unit)) : M unit :=
  match l with
  | [] => ret tt
  | [m] => m
  | m :: r => m ;; block r
  end.

(** The states a block passes through: the one each statement leaves,
    up to and with the one that raises. *)
Fixpoint trail (l : list (M unit)) (s : state) : list state :=
  match l with
  | [] => []
  | m :: r =>
      match m s with
      | (s', inr _) => s' :: trail r s'
      | (s', inl _) => [s']
      end
  end.

(** [f = open(p, 'w')]: a file without write permission is refused;
    otherwise the file is created, or truncated when it exists. *)
Definition open_w (p : path) : M unit :=
  fun s =>
    if locked p (fs s) then (s, inl PermissionError)
    else sys (store p (rw [])) s.

(** What was written to [f] is in the file when [f] is closed. *)
Definition write_close (p : path) (d : list byte) : M unit :=
  sys (fill p d).

(** [shutil.copystat(src, dst)], as far as [file] goes. *)
Definition copystat (src dst : path) : M unit := sys (copymode src dst).

(** [shutil.copy2(src, dst)], with the call recorded: the same file as
    source and destination raises; [copyfile] opens the source, opens
    the destination for writing (created or truncated) and fills it;
    [copystat] follows.  A destination that is a directory stands for
    the path of the source's name in it. *)
Definition copy2 (src dst : path) : M unit :=
  fun s =>
    let s1 := mkState (fs s) (stdout s) (manifest_assets s)
                      (copy_calls s ++ [(src, dst)]) in
    let dst' := copy2_target src dst (fs s) in
    if path_eqb src dst' && exists_ src (fs s) then (s1, inl SameFileError)
    else
      match read src (fs s) with
      | inl e => (s1, inl e)
      | inr f =>
          (open_w dst' ;; write_close dst' (data f) ;; copystat src dst') s1
      end.

(** The exit status of the interpreter: the value handed to [sys.exit],
    or 1 after an uncaught exception. *)
Definition exit_status (r : state * result nat) : nat :=
  match snd r with
  | inr code => code
  | inl _ => 1
  end.

(** A fresh process in working directory [root]. *)
Definition start (root : node) : state := mkState root [] [] [].

End Py.

(** ** [process_assets.py] *)

Module AssetProcessor.

Import FS Json Py.
Local Open Scope py_scope.

(** The attributes [__init__] sets and no method changes; the third,
    [manifest], is [Py.manifest_assets]. *)
Record t : Type := mk {
  assets_dir : path;
  output_dir : path
}.

(** [AssetProcessor(assets_dir, output_dir)] *)
Definition init (assets output : path) : M t :=
  fun s => (mkState (fs s) (stdout s) [] (copy_calls s), inr (mk assets output)).

(** [self.manifest["assets"].append(entry)] *)
Definition append_asset (entry : json) : M unit :=
  fun s => (mkState (fs s) (stdout s) (manifest_assets s ++ [entry]) (copy_calls s),
            inr tt).

(** [process_textures]: every entry of [assets_dir / "textures"] whose suffix,
    in lower case, is listed is copied and recorded. *)
Definition process_textures (self : t) : M unit :=
  let texture_dir := child (assets_dir self) "textures" in
  present <- ask (exists_ texture_dir) ;;
  if negb present then ret tt
  else
    let output_texture_dir := child (output_dir self) "textures" in
    sys (mkdir true output_texture_dir) ;;
    files <- ask (glob_star texture_dir) ;;
    for_each files (fun texture_file =>
      if PyStr.mem (PyStr.lower (PyStr.suffix (name texture_file)))
                   [".png"; ".jpg"; ".jpeg"; ".tga"; ".bmp"]
      then
        print ("Processing texture: " ++ name texture_file)%string ;;
        copy2 texture_file (child output_texture_dir (name texture_file)) ;;
        append_asset
          (JObj [("type", JStr "texture");
                 ("source", JStr (str texture_file));
                 ("output", JStr (str (child output_texture_dir (name texture_file))))])
      else ret tt).

(** [process_models] *)
Definition process_models (self : t) : M unit :=
  let model_dir := child (assets_dir self) "models" in
  present <- ask (exists_ model_dir) ;;
  if negb present then ret tt
  else
    let output_model_dir := child (output_dir self) "models" in
    sys (mkdir true output_model_dir) ;;
    files <- ask (glob_star model_dir) ;;
    for_each files (fun model_file =>
      if PyStr.mem (PyStr.lower (PyStr.suffix (name model_file)))
                   [".obj"; ".fbx"; ".gltf"; ".dae"]
      then
        print ("Processing model: " ++ name model_file)%string ;;
        copy2 model_file (child output_model_dir (name model_file)) ;;
        append_asset
          (JObj [("type", JStr "model");
                 ("source", JStr (str model_file));
                 ("output", JStr (str (child output_model_dir (name model_file))))])
      else ret tt).

(** [process_audio] *)
Definition process_audio (self : t) : M unit :=
  let audio_dir := child (assets_dir self) "sounds" in
  present <- ask (exists_ audio_dir) ;;
  if negb present then ret tt
  else
    let output_audio_dir := child (output_dir self) "sounds" in
    sys (mkdir true output_audio_dir) ;;
    files <- ask (glob_star audio_dir) ;;
    for_each files (fun audio_file =>
      if PyStr.mem (PyStr.lower (PyStr.suffix (name audio_file)))
                   [".wav"; ".ogg"; ".mp3"]
      then
        print ("Processing audio: " ++ name audio_file)%string ;;
        copy2 audio_file (child output_audio_dir (name audio_file)) ;;
        append_asset
          (JObj [("type", JStr "audio");
                 ("source", JStr (str audio_file));
                 ("output", JStr (str (child output_audio_dir (name audio_file))))])
      else ret tt).

(** [process_shaders] *)
Definition process_shaders (self : t) : M unit :=
  let shader_dir := child (assets_dir self) "shaders" in
  present <- ask (exists_ shader_dir) ;;
  if negb present then ret tt
  else
    let output_shader_dir := child (output_dir self) "shaders" in
    sys (mkdir true output_shader_dir) ;;
    files <- ask (glob_star shader_dir) ;;
    for_each files (fun shader_file =>
      if PyStr.mem (PyStr.lower (PyStr.suffix (name shader_file)))
                   [".glsl"; ".vert"; ".frag"; ".hlsl"]
      then
        print ("Processing shader: " ++ name shader_file)%string ;;
        copy2 shader_file (child output_shader_dir (name shader_file)) ;;
        append_asset
          (JObj [("type", JStr "shader");
                 ("source", JStr (str shader_file));
                 ("output", JStr (str (child output_shader_dir (name shader_file))))])
      else ret tt).

Definition manifest_file (self : t) : path :=
  child (output_dir self) "asset_manifest.json".

(** [self.manifest] as [json.dump] sees it. *)
Definition manifest_json (assets : list json) : json :=
  JObj [("assets", JArr assets)].

Definition manifest_text (assets : list json) : list byte :=
  list_byte_of_string (dumps (manifest_json assets)).

(** [self.manifest["assets"]] *)
Definition get_assets : M (list json) := fun s => (s, inr (manifest_assets s)).

(** The statements of [generate_manifest]:
    [with open(manifest_file, 'w') as f:] creates or truncates the file
    at its destination; [json.dump(self.manifest, f, indent=2)] and
    leaving the [with] block put the text in it; [print(...)]. *)
Definition generate_manifest_steps (self : t) : list (M unit) :=
  [ open_w (manifest_file self);
    (assets <- get_assets ;;
     write_close (manifest_file self) (manifest_text assets));
    print ("Generated manifest: " ++ str (manifest_file self))%string ].

Definition generate_manifest (self : t) : M unit :=
  block (generate_manifest_steps self).

Definition process_all_assets (self : t) : M bool :=
  print "Starting asset processing..." ;;
  present <- ask (exists_ (assets_dir self)) ;;
  if negb present then
    print ("Assets directory '" ++ str (assets_dir self) ++ "' not found!")%string ;;
    ret false
  else
    sys (mkdir true (output_dir self)) ;;
    process_textures self ;;
    process_models self ;;
    process_audio self ;;
    process_shaders self ;;
    generate_manifest self ;;
    print "Asset processing complete!" ;;
    ret true.

(** [main]: [sys.exit(0 if success else 1)] *)
Definition main : M nat :=
  processor <- init ["assets"] ["processed_assets"] ;;
  success <- process_all_assets processor ;;
  ret (if success then 0 else 1).

(** One run of the script in working directory [root]. *)
Definition run (root : node) : state * result nat := main (start root).

End AssetProcessor.

(** ** [compile_shaders.py] *)

Module CompileShaders.

Import FS Py.
Local Open Scope py_scope.

Definition compile_shader (input_file output_file : path) (shader_type : string)
  : M bool :=
  print ("Compiling " ++ str input_file ++ " -> " ++ str output_file)%string ;;
  ret true.

(** [output_dir / shader_file.relative_to(input_dir).with_suffix('.spv')] *)
Definition output_file (input_dir output_dir shader_file : path) : result path :=
  match relative_to shader_file input_dir with
  | inl e => inl e
  | inr rel =>
      match with_suffix rel ".spv" with
      | inl e => inl e
      | inr rel' => inr (output_dir ++ rel')
      end
  end.

(** The [for] loop of [main]; [Some code] when it left through [return]. *)
Fixpoint compile_all (input_dir output_dir : path) (shader_files : list path)
  : M (option nat) :=
  match shader_files with
  | [] => ret None
  | shader_file :: rest =>
      out <- lift (output_file input_dir output_dir shader_file) ;;
      ok <- compile_shader shader_file out "vertex" ;;
      if negb ok then ret (Some 1)
      else compile_all input_dir output_dir rest
  end.

(** [main], from the parsed arguments [--input] and [--output] on. *)
Definition main (input_dir output_dir : path) : M nat :=
  present <- ask (exists_ input_dir) ;;
  if negb present then
    print ("Error: Input directory " ++ str input_dir ++ " does not exist")%string ;;
    ret 1
  else
    sys (mkdir_parents output_dir) ;;
    hlsl <- ask (rglob ".hlsl" input_dir) ;;
    glsl <- ask (rglob ".glsl" input_dir) ;;
    let shader_files := hlsl ++ glsl in
    early <- compile_all input_dir output_dir shader_files ;;
    match early with
    | Some code => ret code
    | None =>
        print ("Successfully compiled " ++ PyStr.of_nat (length shader_files)
               ++ " shaders")%string ;;
        ret 0
    end.

Definition run (input_dir output_dir : path) (root : node) : state * result nat :=
  main input_dir output_dir (start root).

(** The shader files [main] finds, and the line [compile_shader] prints
    for one of them. *)
Definition shader_files (input_dir : path) (n : node) : list path :=
  rglob ".hlsl" input_dir n ++ rglob ".glsl" input_dir n.

Definition report (input_dir output_dir shader_file : path) : string :=
  match output_file input_dir output_dir shader_file with
  | inr out => ("Compiling " ++ str shader_file ++ " -> " ++ str out)%string
  | inl _ => ""
  end.

(** The state of a successful run on the file system [n1] that has the
    output directory: every shader file found has its line, and the
    summary counts them all. *)
Definition compiled (input_dir output_dir : path) (n1 : node) : state :=
  mkState n1
    (map (report input_dir output_dir) (shader_files input_dir n1)
     ++ [("Successfully compiled "
          ++ PyStr.of_nat (length (shader_files input_dir n1))
          ++ " shaders")%string])
    [] [].

End CompileShaders.

(** ** What one run of the asset pipeline amounts to

    [main] builds its processor with the default directories, so every
    path of a run is below ["assets"] or ["processed_assets"].  The
    definitions below read off the four loops what a run that is not
    interrupted by an exception prints, records and writes; the theorems
    relate [AssetProcessor.main] to them. *)

Module Run.

Import FS Json Py AssetProcessor.

Definition self : AssetProcessor.t := mk ["assets"] ["processed_assets"].

Local Open Scope py_scope.

Definition texture_exts : list string := [".png"; ".jpg"; ".jpeg"; ".tga"; ".bmp"].
Definition model_exts : list string := [".obj"; ".fbx"; ".gltf"; ".dae"].
Definition audio_exts : list string := [".wav"; ".ogg"; ".mp3"].
Definition shader_exts : list string := [".glsl"; ".vert"; ".frag"; ".hlsl"].

(** [f.suffix.lower() in exts] *)
Definition recognized (exts : list string) (name : string) : bool :=
  PyStr.mem (PyStr.lower (PyStr.suffix name)) exts.

Definition entry (kind : string) (src out : path) : json :=
  JObj [("type", JStr kind); ("source", JStr (str src)); ("output", JStr (str out))].

(** The body of the four loops, and the four methods: they are one text
    up to the directory name, the extension list and the type label. *)
Definition process_file (kind : string) (exts : list string)
           (out_dir : path) (f : path) : M unit :=
  if recognized exts (name f) then
    print ("Processing " ++ kind ++ ": " ++ name f)%string ;;
    copy2 f (child out_dir (name f)) ;;
    append_asset (entry kind f (child out_dir (name f)))
  else ret tt.

Definition process_dir (self : t) (subdir kind : string) (exts : list string)
  : M unit :=
  let src_dir := child (assets_dir self) subdir in
  present <- ask (exists_ src_dir) ;;
  if negb present then ret tt
  else
    let out_dir := child (output_dir self) subdir in
    sys (mkdir true out_dir) ;;
    files <- ask (glob_star src_dir) ;;
    for_each files (process_file kind exts out_dir).

(** What tells the four methods apart, in call order. *)
Record category : Type := mkCategory {
  subdir : string;
  kind : string;
  exts : list string
}.

Definition textures := mkCategory "textures" "texture" texture_exts.
Definition models := mkCategory "models" "model" model_exts.
Definition sounds := mkCategory "sounds" "audio" audio_exts.
Definition shaders := mkCategory "shaders" "shader" shader_exts.

Definition categories : list category := [textures; models; sounds; shaders].

Definition src (c : category) (x : string) : path := ["assets"; subdir c; x].
Definition dst (c : category) (x : string) : path := ["processed_assets"; subdir c; x].

(** The entries of a category directory whose name passes the suffix
    test, in listing order. *)
Definition names (c : category) (root : node) : list string :=
  filter (recognized (exts c)) (map fst (listdir ["assets"; subdir c] root)).

Definition line (c : category) (x : string) : string :=
  ("Processing " ++ kind c ++ ": " ++ x)%string.

Definition lines (root : node) : list string :=
  flat_map (fun c => map (line c) (names c root)) categories.

Definition entries (root : node) : list json :=
  flat_map (fun c => map (fun x => entry (kind c) (src c x) (dst c x)) (names c root))
           categories.

Definition calls (root : node) : list (path * path) :=
  flat_map (fun c => map (fun x => (src c x, dst c x)) (names c root)) categories.

(** The file named [x] of category [c] has been copied: the file, bytes
    and permission, is where [shutil.copy2] puts it. *)
Definition copied (n : node) (c : category) (x : string) : Prop :=
  exists d, lookup (src c x) n = Some (File d)
            /\ lookup (copy2_target (src c x) (dst c x) n) n = Some (File d).

(** One change a run makes to the file system: a directory below the
    output directory is made, a source file is copied, or the manifest
    file is opened or written.  (A destination that [shutil.copy2]
    truncates and then fills is one change: the file holding the
    source's bytes replaces what was there.) *)
Inductive pstep (n n' : node) : Prop :=
| pstep_mkdir q :
    length q <= 1 ->
    mkdir true ("processed_assets" :: q) n = inr n' -> pstep n n'
| pstep_copy c x d :
    lookup (src c x) n = Some (File d) ->
    store (copy2_target (src c x) (dst c x) n) d n = inr n' -> pstep n n'
| pstep_manifest d :
    store ["processed_assets"; "asset_manifest.json"] d n = inr n' -> pstep n n'.

Inductive psteps (n : node) : node -> Prop :=
| psteps_refl : psteps n n
| psteps_step n1 n2 : psteps n n1 -> pstep n1 n2 -> psteps n n2.

(** A file system a run has nothing left to do on. *)
Definition settled (n : node) : Prop :=
  is_dir ["processed_assets"] n = true
  /\ (forall c, In c categories ->
        exists_ ["assets"; subdir c] n = true ->
        is_dir ["processed_assets"; subdir c] n = true)
  /\ (forall c x, In c categories -> In x (names c n) -> copied n c x)
  /\ lookup (manifest_file self) n = Some (File (rw (manifest_text (entries n)))).

(** Some file the loop over category [c] selects may not be written. *)
Definition refused (c : category) (n : node) : bool :=
  existsb (fun x => locked (src c x) n) (names c n).

(** Every file a run selects may be written, and so may its copy. *)
Definition rewritable (n : node) : Prop :=
  forall c x d, In c categories -> In x (names c n) ->
                lookup (src c x) n = Some (File d) -> writable d = true.

Definition manifest_path : path := ["processed_assets"; "asset_manifest.json"].

(** The state after the loop over category [c] handled the files [xs]
    and left the file system [n']. *)
Definition logged (c : category) (xs : list string) (n' : node) (s : state)
  : state :=
  mkState n'
    (stdout s ++ map (line c) xs)
    (manifest_assets s ++ map (fun x => entry (kind c) (src c x) (dst c x)) xs)
    (copy_calls s ++ map (fun x => (src c x, dst c x)) xs).

(** The state of a run that found no assets directory. *)
Definition not_found (root : node) : state :=
  mkState root
    ["Starting asset processing..."; "Assets directory 'assets' not found!"] [] [].

(** The state a completed run ends in. *)
Definition final (n : node) : state :=
  mkState n
    (["Starting asset processing..."] ++ lines n
     ++ ["Generated manifest: processed_assets/asset_manifest.json";
         "Asset processing complete!"])
    (entries n) (calls n).

(** The output directory as a run on a fresh working directory keeps it
    until the manifest is written: below [processed_assets] there are
    directories only, and below those files only. *)
Definition clean (n : node) : Prop :=
  is_dir ["processed_assets"] n = true
  /\ (forall c, is_file ["processed_assets"; c] n = false)
  /\ (forall c x, is_dir ["processed_assets"; c; x] n = false)
  /\ is_dir manifest_path n = false.

(** Lines 28 to 34 of [process_all_assets]: the output directory is
    made and the four methods are called; [generate_manifest] follows. *)
Definition copying (self : t) : M unit :=
  sys (mkdir true (output_dir self)) ;;
  process_textures self ;;
  process_models self ;;
  process_audio self ;;
  process_shaders self.

(** Every entry with a listed suffix is a regular file. *)
Definition sources_ok (n : node) : Prop :=
  forall c x, In c categories -> In x (names c n) -> is_file (src c x) n = true.

End Run.

(** ** The specification's manifest

    The specification describes a manifest keyed by logical asset ID; the
    pipeline writes a list.  [manifest_shape] follows the specification's
    words, so that they can be compared with what [generate_manifest]
    writes. *)

Module Spec.

Import Json.

Definition record_fields : list string :=
  ["type"; "sourcePaths"; "outputPath"; "contentHash"; "processorVersion";
   "status"; "timestamp"].

Definition is_record (j : json) : bool :=
  match j with
  | JObj members =>
      if list_eq_dec string_dec (map fst members) record_fields then true else false
  | _ => false
  end.

(** "a serialized object mapping logical asset ID -> {type, sourcePaths,
    outputPath, contentHash, processorVersion, status, timestamp}" *)
Definition manifest_shape (j : json) : bool :=
  match j with
  | JObj members => forallb (fun kv => is_record (snd kv)) members
  | _ => false
  end.

End Spec.

(** ** Sample trees *)

Module Sample.

Import FS.

Definition bytes (s : string) : list byte := list_byte_of_string s.

(** [assets/textures/a.png] and [assets/shaders/b.frag], nothing else. *)
Definition scenario (png frag : list byte) : node :=
  Dir [("assets",
        Dir [("textures", Dir [("a.png", File (rw png))]);
             ("shaders", Dir [("b.frag", File (rw frag))])])].

Definition two_assets : node := scenario (bytes "PNG") (bytes "void main() {}").

(** A working directory without [assets]. *)
Definition empty : node := Dir [].




(** One texture, which may not be written (mode [0444]). *)
Definition read_only : node :=
  Dir [("assets", Dir [("textures", Dir [("a.png", File (ro (bytes "PNG")))])])].

(** A shader tree; [out] is a regular file. *)
Definition shaders : node :=
  Dir [("shaders",
        Dir [("basic.hlsl", File (rw (bytes "float4 main() : SV_Target { }")));
             ("post", Dir [("blur.glsl", File (rw (bytes "not a shader at all")))])]);
       ("out", File (rw []))].

End Sample.

(** ** What a computation leaves in place *)

Module Effects.

Import FS Py.

(** Whatever way the computation ends, with a value or with an exception,
    the file system it leaves is related by [R] to the one it found. *)
Definition keeps (R : node -> node -> Prop) {A : Type} (m : M A) : Prop :=
  forall s s' r, m s = (s', r) -> R (fs s) (fs s').

(** Nothing outside [processed_assets] differs. *)
Definition outside_same (n n' : node) : Prop :=
  forall x p, x <> "processed_assets" -> lookup (x :: p) n' = lookup (x :: p) n.

(** What was a file is a file and what was a directory is a directory. *)
Definition kinds_kept (n n' : node) : Prop :=
  forall p, (is_file p n = true -> is_file p n' = true)
            /\ (is_dir p n = true -> is_dir p n' = true).

(** The manifest path holds what it held. *)
Definition manifest_same (n n' : node) : Prop :=
  lookup ["processed_assets"; "asset_manifest.json"] n'
  = lookup ["processed_assets"; "asset_manifest.json"] n.

(** Every regular file holds the bytes it held, and there is no new one. *)
Definition files_same (n n' : node) : Prop :=
  forall p d, lookup p n' = Some (File d) <-> lookup p n = Some (File d).

End Effects.

(** ** Well-formed trees *)

Module Tree.

Import FS.

(** In a file system no directory has two entries of one name. *)
Fixpoint wf (n : node) : bool :=
  match n with
  | File _ => true
  | Dir es =>
      (fix all (l : list (string * node)) : bool :=
         match l with
         | [] => true
         | (x, c) :: r => negb (PyStr.mem x (map fst r)) && wf c && all r
         end) es
  end.

End Tree.

(** ** The characters of a manifest *)

Module Text.

Import Json.

(** Induction over a JSON value, with the hypothesis for every item of
    an array and every member of an object. *)
Fixpoint json_ind' (P : json -> Prop)
         (Ps : forall s, P (JStr s))
         (Pa : forall l, Forall P l -> P (JArr l))
         (Po : forall l, Forall (fun kv => P (snd kv)) l -> P (JObj l))
         (j : json) : P j :=
  match j with
  | JStr s => Ps s
  | JArr l =>
      Pa l ((fix all (l : list json) : Forall P l :=
               match l with
               | [] => Forall_nil _
               | x :: r => Forall_cons x (json_ind' P Ps Pa Po x) (all r)
               end) l)
  | JObj l =>
      Po l ((fix all (l : list (string * json)) : Forall (fun kv => P (snd kv)) l :=
               match l with
               | [] => Forall_nil _
               | kv :: r => Forall_cons kv (json_ind' P Ps Pa Po (snd kv)) (all r)
               end) l)
  end.

(** Every character is an ASCII character. *)
Fixpoint ascii_only (s : string) : bool :=
  match s with
  | EmptyString => true
  | String c r => (nat_of_ascii c <? 128) && ascii_only r
  end.

Definition ascii_bytes (l : list byte) : bool :=
  forallb (fun b => Byte.to_nat b <? 128) l.

End Text.

(** ** More sample trees *)

Module Cases.

Import FS.

(** A texture, then a directory with a texture's name; an output directory
    with the manifest of some earlier run and a file of its own. *)
Definition interrupted : node :=
  Dir [("assets",
        Dir [("textures",
              Dir [("a.png", File (rw (Sample.bytes "PNG")));
                   ("pack.png", Dir [("b.png", File (rw (Sample.bytes "B")))])])]);
       ("processed_assets",
        Dir [("asset_manifest.json", File (rw (Sample.bytes "old manifest")));
             ("notes.txt", File (rw (Sample.bytes "keep me")))]);
       ("README.md", File (rw (Sample.bytes "read me")))].

(** A texture with a name outside ASCII: [caf], e acute, [.png]. *)
Definition accented : node :=
  Dir [("assets",
        Dir [("textures",
              Dir [(("caf" ++ String (ascii_of_nat 233) ".png")%string,
                    File (rw (Sample.bytes "PNG")))])])].

End Cases.

(** A shader tree with sub-directories, and an output path through a
    directory that is not there yet. *)

Module ShaderCases.

Import FS.

Definition project : node :=
  Dir [("shaders",
        Dir [("basic.glsl", File (rw (Sample.bytes "void main() {}")));
             ("post", Dir [("blur.hlsl", File (rw (Sample.bytes "float4 main()")));
                           ("notes.txt", File (rw (Sample.bytes "todo")))]);
             ("Sky.GLSL", File (rw (Sample.bytes "upper case")))]);
       ("build", File (rw (Sample.bytes "a file named build")))].

End ShaderCases.

(** * Properties *)

(** ** The file system operations *)

Section FSFacts.

Import FS.

Lemma assoc_set_same x n es : assoc x (set x n es) = Some n.
Proof.
  induction es as [|[y m] r IH]; simpl.
  - now rewrite String.eqb_refl.
  - destruct (String.eqb x y) eqn:E; simpl; rewrite E; auto.
Qed.

Lemma assoc_set_other x y n es :
  x <> y -> assoc y (set x n es) = assoc y es.
Proof.
  intros Hxy. induction es as [|[z m] r IH]; simpl.
  - destruct (String.eqb y x) eqn:E; auto.
    apply String.eqb_eq in E. congruence.
  - destruct (String.eqb x z) eqn:E; simpl.
    + apply String.eqb_eq in E. subst z.
      destruct (String.eqb y x) eqn:E'; auto.
      apply String.eqb_eq in E'. congruence.
    + destruct (String.eqb y z); auto.
Qed.

Lemma set_id x n es : assoc x es = Some n -> set x n es = es.
Proof.
  induction es as [|[y m] r IH]; simpl; [discriminate|].
  destruct (String.eqb x y) eqn:E.
  - now intros [= ->].
  - intros H. now rewrite IH.
Qed.

Lemma set_set x a b es : set x b (set x a es) = set x b es.
Proof.
  induction es as [|[y m] r IH]; simpl.
  - now rewrite String.eqb_refl.
  - destruct (String.eqb x y) eqn:E; simpl; rewrite E; auto.
    now rewrite IH.
Qed.

Lemma read_lookup p n d : read p n = inr d <-> lookup p n = Some (File d).
Proof.
  revert n. induction p as [|x p IH]; intros n; simpl.
  - destruct n; split; intros H; inversion H; auto.
  - destruct n as [c|es]; [split; discriminate|].
    destruct (assoc x es); [apply IH | split; discriminate].
Qed.

(** *** [store] *)

Lemma store_lookup p d n n' : store p d n = inr n' -> lookup p n' = Some (File d).
Proof.
  revert n n'. induction p as [|x p IH]; intros n n'; simpl.
  - destruct n; [|discriminate]. now intros [= <-].
  - destruct n as [c|es]; [discriminate|].
    destruct (assoc x es) as [c|] eqn:A.
    + destruct (store p d c) as [e|c'] eqn:S; [discriminate|].
      intros [= <-]. simpl. rewrite assoc_set_same. eauto.
    + destruct p; [|discriminate].
      intros [= <-]. simpl. now rewrite assoc_set_same.
Qed.

Lemma store_id p d n : lookup p n = Some (File d) -> store p d n = inr n.
Proof.
  revert n. induction p as [|x p IH]; intros n; simpl.
  - now intros [= ->].
  - destruct n as [c|es]; [discriminate|].
    destruct (assoc x es) as [c|] eqn:A; [|discriminate].
    intros H. rewrite (IH _ H). now rewrite set_id.
Qed.

Lemma store_store p a d n n1 :
  store p a n = inr n1 -> store p d n1 = store p d n.
Proof.
  revert n n1. induction p as [|x p IH]; intros n n1; simpl.
  - destruct n; [|discriminate]. now intros [= <-].
  - destruct n as [c|es]; [discriminate|].
    destruct (assoc x es) as [c|] eqn:A.
    + destruct (store p a c) as [e|c'] eqn:S; [discriminate|].
      intros [= <-]. simpl. rewrite assoc_set_same, (IH _ _ S).
      destruct (store p d c); [reflexivity|]. now rewrite set_set.
    + destruct p; [|discriminate].
      intros [= <-]. simpl. rewrite assoc_set_same, set_set. reflexivity.
Qed.

Lemma store_file_ok p a c n :
  lookup p n = Some (File c) -> exists n1, store p a n = inr n1.
Proof.
  revert n. induction p as [|x p IH]; intros n; simpl.
  - intros [= ->]. eauto.
  - destruct n as [c0|es]; [discriminate|].
    destruct (assoc x es) as [c0|] eqn:A; [|discriminate].
    intros H. destruct (IH _ H) as [n1 ->]. eauto.
Qed.

(** Writing below one entry of the working directory leaves the others. *)
Lemma store_frame x q d n n' y p :
  store (x :: q) d n = inr n' -> y <> x -> lookup (y :: p) n' = lookup (y :: p) n.
Proof.
  simpl. destruct n as [c|es]; [discriminate|].
  intros H Hy.
  assert (exists c', n' = Dir (set x c' es)) as [c' ->].
  { destruct (assoc x es) as [c|].
    - destruct (store q d c); [discriminate|]. inversion H; eauto.
    - destruct q; [|discriminate]. inversion H; eauto. }
  simpl. rewrite assoc_set_other; auto.
Qed.

Lemma store_keeps_file q d n n' p c :
  store q d n = inr n' -> lookup p n = Some (File c) -> p <> q ->
  lookup p n' = Some (File c).
Proof.
  revert n n' p. induction q as [|x q IH]; intros n n' p; simpl.
  - destruct n; [|discriminate]. intros [= <-].
    destruct p; [congruence | discriminate].
  - destruct n as [c0|es]; [discriminate|].
    destruct p as [|y p]; [discriminate|]. simpl.
    destruct (string_dec x y) as [<-|Hxy].
    + destruct (assoc x es) as [c0|] eqn:A; [|discriminate].
      destruct (store q d c0) as [e|c'] eqn:S; [discriminate|].
      intros [= <-] Hp Hne. simpl. rewrite assoc_set_same.
      eapply IH; eauto. congruence.
    + intros H Hp _.
      assert (exists c', n' = Dir (set x c' es)) as [c' ->].
      { destruct (assoc x es) as [c0|].
        - destruct (store q d c0); [discriminate|]. inversion H; eauto.
        - destruct q; [|discriminate]. inversion H; eauto. }
      simpl. rewrite assoc_set_other; auto.
Qed.

Lemma store_is_dir q d n n' p :
  store q d n = inr n' -> is_dir p n' = is_dir p n.
Proof.
  unfold is_dir.
  revert n n' p. induction q as [|x q IH]; intros n n' p; simpl.
  - destruct n; [|discriminate]. intros [= <-].
    destruct p; reflexivity.
  - destruct n as [c0|es]; [discriminate|].
    destruct p as [|y p].
    + intros H.
      destruct (assoc x es) as [c0|].
      * destruct (store q d c0); [discriminate|]. now inversion H.
      * destruct q; [|discriminate]. now inversion H.
    + simpl. destruct (string_dec x y) as [<-|Hxy].
      * destruct (assoc x es) as [c0|] eqn:A.
        -- destruct (store q d c0) as [e|c'] eqn:S; [discriminate|].
           intros [= <-]. simpl. rewrite assoc_set_same. eapply IH; eauto.
        -- destruct q; [|discriminate]. intros [= <-]. simpl.
           rewrite assoc_set_same. destruct p; reflexivity.
      * intros H.
        assert (exists c', n' = Dir (set x c' es)) as [c' ->].
        { destruct (assoc x es) as [c0|].
          - destruct (store q d c0); [discriminate|]. inversion H; eauto.
          - destruct q; [|discriminate]. inversion H; eauto. }
        simpl. rewrite assoc_set_other; auto.
Qed.

(** *** [mkdir] *)

Lemma mkdir_shape b x q es n' :
  mkdir b (x :: q) (Dir es) = inr n' -> exists c', n' = Dir (set x c' es).
Proof.
  simpl. destruct (assoc x es) as [c|].
  - destruct (mkdir b q c); [discriminate|]. intros [= <-]; eauto.
  - destruct q; [|discriminate]. intros [= <-]; eauto.
Qed.

Lemma mkdir_is_dir b p n n' : mkdir b p n = inr n' -> is_dir p n' = true.
Proof.
  unfold is_dir. revert n n'. induction p as [|x p IH]; intros n n'; simpl.
  - destruct n; [discriminate|]. destruct b; [|discriminate]. now intros [= <-].
  - destruct n as [c|es]; [discriminate|].
    destruct (assoc x es) as [c|] eqn:A.
    + destruct (mkdir b p c) as [e|c'] eqn:S; [discriminate|].
      intros [= <-]. simpl. rewrite assoc_set_same. eauto.
    + destruct p; [|discriminate].
      intros [= <-]. simpl. now rewrite assoc_set_same.
Qed.

Lemma mkdir_id p n : is_dir p n = true -> mkdir true p n = inr n.
Proof.
  unfold is_dir. revert n. induction p as [|x p IH]; intros n; simpl.
  - destruct n; [discriminate|reflexivity].
  - destruct n as [c|es]; [discriminate|].
    destruct (assoc x es) as [c|] eqn:A; [|discriminate].
    intros H. rewrite (IH _ H). now rewrite set_id.
Qed.

Lemma mkdir_frame b x q n n' y p :
  mkdir b (x :: q) n = inr n' -> y <> x -> lookup (y :: p) n' = lookup (y :: p) n.
Proof.
  destruct n as [c|es]; [discriminate|].
  intros H Hy. destruct (mkdir_shape _ _ _ _ _ H) as [c' ->].
  simpl. rewrite assoc_set_other; auto.
Qed.

Lemma mkdir_keeps_file b q n n' p c :
  mkdir b q n = inr n' -> lookup p n = Some (File c) -> lookup p n' = Some (File c).
Proof.
  revert n n' p. induction q as [|x q IH]; intros n n' p.
  - simpl. destruct n; [discriminate|]. destruct b; [|discriminate]. now intros [= <-].
  - destruct n as [c0|es]; [discriminate|].
    destruct p as [|y p]; [discriminate|].
    destruct (string_dec x y) as [<-|Hxy].
    + simpl. destruct (assoc x es) as [c0|] eqn:A; [|discriminate].
      destruct (mkdir b q c0) as [e|c'] eqn:S; [discriminate|].
      intros [= <-] Hp. simpl. rewrite assoc_set_same. eapply IH; eauto.
    + intros H Hp. rewrite <- Hp. eapply mkdir_frame; eauto.
Qed.

Lemma mkdir_is_dir_other b q n n' p :
  mkdir b q n = inr n' -> p <> q -> is_dir p n' = is_dir p n.
Proof.
  revert n n' p. induction q as [|x q IH]; intros n n' p.
  - simpl. destruct n; [discriminate|]. destruct b; [|discriminate]. now intros [= <-].
  - destruct n as [c0|es]; [discriminate|].
    destruct p as [|y p].
    + intros H _. destruct (mkdir_shape _ _ _ _ _ H) as [c' ->]. reflexivity.
    + destruct (string_dec x y) as [<-|Hxy].
      * unfold is_dir. simpl. destruct (assoc x es) as [c0|] eqn:A.
        -- destruct (mkdir b q c0) as [e|c'] eqn:S; [discriminate|].
           intros [= <-] Hne. simpl. rewrite assoc_set_same.
           apply (IH _ _ p S). congruence.
        -- destruct q; [|discriminate]. intros [= <-] Hne. simpl.
           rewrite assoc_set_same. destruct p; [congruence|reflexivity].
      * intros H _. unfold is_dir. now rewrite (mkdir_frame _ _ _ _ _ _ p H).
Qed.

Lemma mkdir_keeps_dir b q n n' p :
  mkdir b q n = inr n' -> is_dir p n = true -> is_dir p n' = true.
Proof.
  intros H Hp. destruct (list_eq_dec string_dec p q) as [->|Hne].
  - eapply mkdir_is_dir; eauto.
  - now rewrite (mkdir_is_dir_other _ _ _ _ _ H Hne).
Qed.

Lemma assoc_in x es n : assoc x es = Some n -> In x (map fst es).
Proof.
  induction es as [|[y m] r IH]; simpl; [discriminate|].
  destruct (String.eqb x y) eqn:E.
  - apply String.eqb_eq in E. auto.
  - auto.
Qed.

Lemma in_assoc x es : In x (map fst es) -> exists n, assoc x es = Some n.
Proof.
  induction es as [|[y m] r IH]; simpl; [tauto|].
  intros [->|H].
  - rewrite String.eqb_refl. eauto.
  - destruct (String.eqb x y); eauto.
Qed.

(** *** What can be written *)

Lemma store_is_file q d n n' p :
  store q d n = inr n' -> p <> q -> is_file p n' = is_file p n.
Proof.
  unfold is_file.
  revert n n' p. induction q as [|x q IH]; intros n n' p; simpl.
  - destruct n; [|discriminate]. intros [= <-] Hne.
    destruct p; [congruence | reflexivity].
  - destruct n as [c0|es]; [discriminate|].
    destruct p as [|y p].
    + intros H _.
      destruct (assoc x es) as [c0|].
      * destruct (store q d c0); [discriminate|]. now inversion H.
      * destruct q; [|discriminate]. now inversion H.
    + simpl. destruct (string_dec x y) as [<-|Hxy].
      * destruct (assoc x es) as [c0|] eqn:A.
        -- destruct (store q d c0) as [e|c'] eqn:S; [discriminate|].
           intros [= <-] Hne. simpl. rewrite assoc_set_same.
           apply (IH _ _ p S). congruence.
        -- destruct q; [|discriminate]. intros [= <-] Hne. simpl.
           rewrite assoc_set_same. destruct p; [congruence|reflexivity].
      * intros H _.
        assert (exists c', n' = Dir (set x c' es)) as [c' ->].
        { destruct (assoc x es) as [c0|].
          - destruct (store q d c0); [discriminate|]. inversion H; eauto.
          - destruct q; [|discriminate]. inversion H; eauto. }
        simpl. rewrite assoc_set_other; auto.
Qed.

Lemma mkdir_is_file b q n n' p :
  mkdir b q n = inr n' -> is_file p n' = is_file p n.
Proof.
  unfold is_file.
  revert n n' p. induction q as [|x q IH]; intros n n' p.
  - simpl. destruct n; [discriminate|]. destruct b; [|discriminate]. now intros [= <-].
  - destruct n as [c0|es]; [discriminate|].
    destruct p as [|y p].
    + intros H. destruct (mkdir_shape _ _ _ _ _ H) as [c' ->]. reflexivity.
    + destruct (string_dec x y) as [<-|Hxy].
      * simpl. destruct (assoc x es) as [c0|] eqn:A.
        -- destruct (mkdir b q c0) as [e|c'] eqn:S; [discriminate|].
           intros [= <-]. simpl. rewrite assoc_set_same. apply (IH _ _ p S).
        -- destruct q; [|discriminate]. intros [= <-]. simpl.
           rewrite assoc_set_same. destruct p; reflexivity.
      * intros H. now rewrite (mkdir_frame _ _ _ _ _ _ p H).
Qed.

(** A file can be written where the parent is a directory and no
    directory is in the way. *)
Lemma store_ok p x d n :
  is_dir p n = true -> is_dir (p ++ [x]) n = false ->
  exists n', store (p ++ [x]) d n = inr n'.
Proof.
  unfold is_dir. revert n. induction p as [|y p IH]; intros n; simpl.
  - destruct n as [c|es]; [discriminate|]. intros _.
    destruct (assoc x es) as [[c|es']|]; [eauto | discriminate | eauto].
  - destruct n as [c|es]; [discriminate|].
    destruct (assoc y es) as [c|] eqn:A; [|discriminate].
    intros Hp Hx. destruct (IH _ Hp Hx) as (n' & S).
    assert (E : exists z r, p ++ [x] = z :: r) by (destruct p; simpl; eauto).
    destruct E as (z & r & E). rewrite E in *. rewrite S. eauto.
Qed.

(** A directory can be made where the parent is a directory and no file
    is in the way. *)
Lemma mkdir_ok p x n :
  is_dir p n = true -> is_file (p ++ [x]) n = false ->
  exists n', mkdir true (p ++ [x]) n = inr n'.
Proof.
  unfold is_dir, is_file. revert n. induction p as [|y p IH]; intros n; simpl.
  - destruct n as [c|es]; [discriminate|]. intros _.
    destruct (assoc x es) as [[c|es']|]; [discriminate | eauto | eauto].
  - destruct n as [c|es]; [discriminate|].
    destruct (assoc y es) as [c|] eqn:A; [|discriminate].
    intros Hp Hx. destruct (IH _ Hp Hx) as (n' & S).
    assert (E : exists z r, p ++ [x] = z :: r) by (destruct p; simpl; eauto).
    destruct E as (z & r & E). rewrite E in *. rewrite S. eauto.
Qed.

(** Filling the file that was just put at a path. *)
Lemma fill_after p w a d n n1 :
  store p (mkFile w a) n = inr n1 -> fill p d n1 = store p (mkFile w d) n.
Proof.
  intros S. unfold fill.
  pose proof (store_lookup _ _ _ _ S) as L. apply read_lookup in L. rewrite L.
  cbn [writable]. apply (store_store _ _ _ _ _ S).
Qed.

(** Whether a file can be written at a path does not depend on what is
    to be written. *)
Lemma store_any p a d n n' :
  store p d n = inr n' -> exists n1, store p a n = inr n1.
Proof.
  intros H. destruct (store_file_ok p a d n' (store_lookup _ _ _ _ H)) as (n1 & S).
  rewrite (store_store _ _ _ _ _ H) in S. eauto.
Qed.

(** Below one entry of the working directory, a change under one name
    leaves the other names. *)
Lemma store_sibling o b q a p d n n' :
  store (o :: b :: q) d n = inr n' -> a <> b ->
  lookup (o :: a :: p) n' = lookup (o :: a :: p) n.
Proof.
  simpl. destruct n as [c|es]; [discriminate|].
  destruct (assoc o es) as [c|] eqn:A; [|discriminate].
  destruct c as [c|es1]; [discriminate|].
  intros H Hab.
  assert (exists c', n' = Dir (set o (Dir (set b c' es1)) es)) as [c' ->].
  { destruct (assoc b es1) as [c0|].
    - destruct (store q d c0); [discriminate|]. inversion H; eauto.
    - destruct q; [|discriminate]. inversion H; eauto. }
  simpl. rewrite assoc_set_same, assoc_set_other; auto.
Qed.

Lemma mkdir_sibling o b a p n n' :
  mkdir true [o; b] n = inr n' -> a <> b ->
  lookup (o :: a :: p) n' = lookup (o :: a :: p) n.
Proof.
  simpl. destruct n as [c|es]; [discriminate|].
  destruct (assoc o es) as [c|] eqn:A; [|discriminate].
  destruct c as [c|es1]; [discriminate|].
  intros H Hab.
  assert (exists c', n' = Dir (set o (Dir (set b c' es1)) es)) as [c' ->].
  { destruct (assoc b es1) as [[c0|es2]|]; inversion H; eauto. }
  simpl. rewrite assoc_set_same, assoc_set_other; auto.
Qed.

Lemma mkdir_below o a p n n' :
  mkdir true [o] n = inr n' ->
  lookup (o :: a :: p) n' = lookup (o :: a :: p) n.
Proof.
  simpl. destruct n as [c|es]; [discriminate|].
  destruct (assoc o es) as [[c|es1]|] eqn:A; intros [= <-]; simpl;
    rewrite assoc_set_same; reflexivity.
Qed.

Lemma lookup_app p : forall q n,
  lookup (p ++ q) n = match lookup p n with Some m => lookup q m | None => None end.
Proof.
  induction p as [|x p IH]; intros q n; simpl; [reflexivity|].
  destruct n as [d|es]; [reflexivity|].
  destruct (assoc x es); [apply IH|reflexivity].
Qed.

(** A change at a path leaves what lies where another name branches
    off it. *)
Lemma store_diverge pre : forall x q y p d n n',
  store (pre ++ x :: q) d n = inr n' -> y <> x ->
  lookup (pre ++ y :: p) n' = lookup (pre ++ y :: p) n.
Proof.
  induction pre as [|a pre IH]; intros x q y p d n n' H Hy.
  - eapply store_frame; eauto.
  - simpl in H. destruct n as [f|es]; [discriminate|].
    destruct (assoc a es) as [c|] eqn:A.
    + destruct (store (pre ++ x :: q) d c) as [e|c'] eqn:S; [discriminate|].
      injection H as <-. simpl. rewrite assoc_set_same, A. eapply IH; eauto.
    + destruct (pre ++ x :: q) eqn:E; [destruct pre; discriminate|discriminate].
Qed.

Lemma mkdir_diverge pre : forall x q y p n n',
  mkdir true (pre ++ x :: q) n = inr n' -> y <> x ->
  lookup (pre ++ y :: p) n' = lookup (pre ++ y :: p) n.
Proof.
  induction pre as [|a pre IH]; intros x q y p n n' H Hy.
  - eapply mkdir_frame; eauto.
  - simpl in H. destruct n as [f|es]; [discriminate|].
    destruct (assoc a es) as [c|] eqn:A.
    + destruct (mkdir true (pre ++ x :: q) c) as [e|c'] eqn:S; [discriminate|].
      injection H as <-. simpl. rewrite assoc_set_same, A. eapply IH; eauto.
    + destruct (pre ++ x :: q) eqn:E; [destruct pre; discriminate|discriminate].
Qed.

(** Making a directory leaves what lies below it. *)
Lemma mkdir_under q : forall y p n n',
  mkdir true q n = inr n' ->
  lookup (q ++ y :: p) n' = lookup (q ++ y :: p) n.
Proof.
  induction q as [|a q IH]; intros y p n n' H.
  - simpl in H. destruct n; [discriminate|]. now injection H as <-.
  - simpl in H. destruct n as [f|es]; [discriminate|].
    destruct (assoc a es) as [c|] eqn:A.
    + destruct (mkdir true q c) as [e|c'] eqn:S; [discriminate|].
      injection H as <-. simpl. rewrite assoc_set_same, A. eapply IH; eauto.
    + destruct q; [|discriminate]. injection H as <-. simpl.
      rewrite assoc_set_same, A. reflexivity.
Qed.

Lemma store_absent q d n n' p :
  store q d n = inr n' -> p <> q -> lookup p n = None -> lookup p n' = None.
Proof.
  intros H Hne L.
  pose proof (store_is_file _ _ _ _ p H Hne) as F.
  pose proof (store_is_dir _ _ _ _ p H) as D.
  unfold is_file, is_dir in F, D. rewrite L in F, D.
  destruct (lookup p n') as [[c|es]|]; congruence.
Qed.

(** A directory that [mkdir] had to make is empty. *)
Lemma mkdir_new o c n n' :
  mkdir true [o; c] n = inr n' -> lookup [o; c] n = None ->
  lookup [o; c] n' = Some (Dir []).
Proof.
  simpl. destruct n as [f|es]; [discriminate|].
  destruct (assoc o es) as [[f|es1]|] eqn:A; try discriminate.
  destruct (assoc c es1) as [[f|es2]|] eqn:B; try discriminate.
  intros [= <-] _. simpl. now rewrite !assoc_set_same.
Qed.

(** *** The entries of a directory *)

Lemma in_own_fst x es : In x (map fst (own es)) <-> In x (map fst es).
Proof.
  induction es as [|[y m] r IH]; simpl; [tauto|].
  rewrite <- IH. split.
  - intros [E|H]; [now left|]. right.
    apply in_map_iff in H as (e & <- & He). apply filter_In in He as (He & _).
    apply in_map. exact He.
  - intros [E|H]; [now left|].
    destruct (string_dec y x) as [E|Hne]; [now left|]. right.
    apply in_map_iff in H as (e & <- & He). apply in_map. apply filter_In.
    split; [exact He|]. apply negb_true_iff. apply String.eqb_neq. congruence.
Qed.

Lemma nodup_filter_fst (f : string * node -> bool) es :
  NoDup (map fst es) -> NoDup (map fst (filter f es)).
Proof.
  induction es as [|e r IH]; simpl; [auto|].
  intros H. inversion H as [|? ? Hn Hr]; subst.
  destruct (f e); simpl; [|auto].
  constructor; [|auto]. intros Hin. apply Hn.
  apply in_map_iff in Hin as (e' & E & He). apply filter_In in He as (He & _).
  rewrite <- E. now apply in_map.
Qed.

Lemma nodup_own es : NoDup (map fst (own es)).
Proof.
  induction es as [|[y m] r IH]; simpl; [constructor|].
  constructor; [|now apply nodup_filter_fst].
  intros Hin. apply in_map_iff in Hin as (e & E & He).
  apply filter_In in He as (_ & He). apply negb_true_iff in He.
  apply String.eqb_neq in He. congruence.
Qed.

Lemma nodup_listdir p n : NoDup (map fst (listdir p n)).
Proof.
  unfold listdir. destruct (lookup p n) as [[f|es]|]; try constructor.
  apply nodup_own.
Qed.

End FSFacts.

(** ** The changes a run makes *)

Section RunFacts.

Import FS Py AssetProcessor Run.

Lemma target_cases c x n :
  copy2_target (src c x) (dst c x) n = dst c x
  \/ copy2_target (src c x) (dst c x) n = ["processed_assets"; subdir c; x; x].
Proof.
  unfold copy2_target. destruct (is_dir (dst c x) n); [right|left]; reflexivity.
Qed.

Lemma target_head c x n :
  exists q, copy2_target (src c x) (dst c x) n = "processed_assets" :: q
            /\ 2 <= length q.
Proof.
  destruct (target_cases c x n) as [-> | ->]; eexists; split;
    try reflexivity; simpl; lia.
Qed.

Lemma assets_not_output : "assets" <> "processed_assets".
Proof. discriminate. Qed.

Lemma pstep_frame n n' p :
  pstep n n' -> lookup ("assets" :: p) n' = lookup ("assets" :: p) n.
Proof.
  intros [q _ H | c x d _ H | d H].
  - eapply mkdir_frame; eauto using assets_not_output.
  - destruct (target_head c x n) as (q & E & _). rewrite E in H.
    eapply store_frame; eauto using assets_not_output.
  - eapply store_frame; eauto using assets_not_output.
Qed.

Lemma pstep_is_dir3 n n' p :
  pstep n n' -> length p = 3 -> is_dir p n' = is_dir p n.
Proof.
  intros [q Hq H | c x d _ H | d H] Hp.
  - eapply mkdir_is_dir_other; eauto.
    intros ->. simpl in Hp. lia.
  - eapply store_is_dir; eauto.
  - eapply store_is_dir; eauto.
Qed.

Lemma pstep_keeps_dir n n' p :
  pstep n n' -> is_dir p n = true -> is_dir p n' = true.
Proof.
  intros [q Hq H | c x d _ H | d H] Hp.
  - eapply mkdir_keeps_dir; eauto.
  - now rewrite (store_is_dir _ _ _ _ p H).
  - now rewrite (store_is_dir _ _ _ _ p H).
Qed.

Lemma pstep_target n n' c x :
  pstep n n' ->
  copy2_target (src c x) (dst c x) n' = copy2_target (src c x) (dst c x) n.
Proof.
  intros H. unfold copy2_target.
  now rewrite (pstep_is_dir3 n n' (dst c x) H eq_refl).
Qed.

(** Two copies with one target are copies of one source. *)
Lemma target_inj c x c' x' n :
  copy2_target (src c x) (dst c x) n = copy2_target (src c' x') (dst c' x') n ->
  src c x = src c' x'.
Proof.
  destruct (target_cases c x n) as [-> | ->];
    destruct (target_cases c' x' n) as [-> | ->]; unfold src, dst;
    intros E; inversion E; reflexivity.
Qed.

Lemma pstep_copied n n' c x : pstep n n' -> copied n c x -> copied n' c x.
Proof.
  intros Hs (d & Hsrc & Htgt). exists d.
  rewrite (pstep_target n n' c x Hs).
  replace (lookup (src c x) n') with (lookup (src c x) n)
    by (symmetry; apply pstep_frame; exact Hs).
  split; [exact Hsrc|].
  destruct Hs as [q Hq H | c' x' d' Hsrc' H | d' H].
  - eapply mkdir_keeps_file; eauto.
  - destruct (list_eq_dec string_dec
                (copy2_target (src c x) (dst c x) n)
                (copy2_target (src c' x') (dst c' x') n)) as [E|NE].
    + assert (d' = d) as ->.
      { apply target_inj in E. rewrite E in Hsrc. congruence. }
      rewrite E. eapply store_lookup; eauto.
    + apply (store_keeps_file _ _ _ _ _ _ H Htgt NE).
  - apply (store_keeps_file _ _ _ _ _ _ H Htgt).
    destruct (target_head c x n) as (q & E & Hq). rewrite E.
    intros E'. inversion E'. subst q. simpl in Hq. lia.
Qed.

Lemma psteps_trans n1 n2 n3 : psteps n1 n2 -> psteps n2 n3 -> psteps n1 n3.
Proof. intros H12 H23. induction H23; eauto using psteps. Qed.

Lemma psteps_one n n' : pstep n n' -> psteps n n'.
Proof. eauto using psteps. Qed.

Lemma psteps_frame n n' p :
  psteps n n' -> lookup ("assets" :: p) n' = lookup ("assets" :: p) n.
Proof.
  induction 1 as [|n1 n2 _ IH Hs]; [reflexivity|].
  now rewrite (pstep_frame _ _ p Hs).
Qed.

Lemma psteps_is_dir3 n n' p :
  psteps n n' -> length p = 3 -> is_dir p n' = is_dir p n.
Proof.
  induction 1 as [|n1 n2 _ IH Hs]; intros Hp; [reflexivity|].
  now rewrite (pstep_is_dir3 _ _ p Hs Hp), IH.
Qed.

Lemma psteps_keeps_dir n n' p :
  psteps n n' -> is_dir p n = true -> is_dir p n' = true.
Proof.
  induction 1 as [|n1 n2 _ IH Hs]; intros Hp; [assumption|].
  eapply pstep_keeps_dir; eauto.
Qed.

Lemma psteps_copied n n' c x : psteps n n' -> copied n c x -> copied n' c x.
Proof.
  induction 1 as [|n1 n2 _ IH Hs]; intros Hc; [assumption|].
  eapply pstep_copied; eauto.
Qed.

Lemma psteps_listdir n n' c :
  psteps n n' -> listdir ["assets"; c] n' = listdir ["assets"; c] n.
Proof. intros H. unfold listdir. now rewrite (psteps_frame _ _ [c] H). Qed.

Lemma psteps_names n n' c : psteps n n' -> names c n' = names c n.
Proof. intros H. unfold names. now rewrite (psteps_listdir _ _ _ H). Qed.

Lemma psteps_exists n n' p :
  psteps n n' -> exists_ ("assets" :: p) n' = exists_ ("assets" :: p) n.
Proof. intros H. unfold exists_. now rewrite (psteps_frame _ _ p H). Qed.

End RunFacts.

(** ** Running the methods *)

Section Methods.

Import FS Py AssetProcessor Run.
Local Open Scope py_scope.

Lemma bind_ok {A B} (m : M A) (k : A -> M B) s s' b :
  bind m k s = (s', inr b) ->
  exists s1 a, m s = (s1, inr a) /\ k a s1 = (s', inr b).
Proof.
  unfold bind. destruct (m s) as [s1 [e|a]]; [discriminate|]. eauto.
Qed.

Lemma bind_ext {A B} (m : M A) (k k' : A -> M B) s :
  (forall a s1, k a s1 = k' a s1) -> bind m k s = bind m k' s.
Proof. intros H. unfold bind. destruct (m s) as [s1 [e|a]]; auto. Qed.

Lemma bind_assoc {A B C} (m : M A) (k : A -> M B) (h : B -> M C) s :
  bind (bind m k) h s = bind m (fun a => bind (k a) h) s.
Proof. unfold bind. destruct (m s) as [s1 [e|a]]; reflexivity. Qed.

Lemma bind_raise {A B} (m : M A) (k : A -> M B) s s1 e :
  m s = (s1, inl e) -> bind m k s = (s1, inl e).
Proof. unfold bind. now intros ->. Qed.

Lemma bind_run {A B} (m : M A) (k : A -> M B) s s1 a :
  m s = (s1, inr a) -> bind m k s = k a s1.
Proof. unfold bind. now intros ->. Qed.

Lemma sys_ok f s s' u :
  sys f s = (s', inr u) ->
  exists n', f (fs s) = inr n'
             /\ s' = mkState n' (stdout s) (manifest_assets s) (copy_calls s).
Proof.
  unfold sys. destruct (f (fs s)) as [e|n']; [discriminate|].
  intros [= <- _]. eauto.
Qed.

Lemma sys_id f s :
  f (fs s) = inr (fs s) -> sys f s = (s, inr tt).
Proof. unfold sys. intros ->. now destruct s. Qed.

Lemma open_w_ok p s s' u :
  open_w p s = (s', inr u) ->
  locked p (fs s) = false
  /\ exists n', store p (rw []) (fs s) = inr n'
                /\ s' = mkState n' (stdout s) (manifest_assets s) (copy_calls s).
Proof.
  unfold open_w. destruct (locked p (fs s)); [discriminate|].
  intros H. split; [reflexivity|]. now apply sys_ok in H.
Qed.

Lemma open_w_run p s n1 :
  locked p (fs s) = false -> store p (rw []) (fs s) = inr n1 ->
  open_w p s = (mkState n1 (stdout s) (manifest_assets s) (copy_calls s), inr tt).
Proof. intros L S. unfold open_w, sys. now rewrite L, S. Qed.

Lemma path_eqb_eq p q : path_eqb p q = false -> p <> q.
Proof. unfold path_eqb. destruct (list_eq_dec string_dec p q); congruence. Qed.

(** [copystat] after [copyfile]: the destination is the source's file. *)
Lemma copystat_after src dst d n n2 :
  lookup src n = Some (File d) -> src <> dst ->
  store dst (rw (data d)) n = inr n2 ->
  copymode src dst n2 = store dst d n.
Proof.
  intros Hsrc Hne S. unfold copymode.
  pose proof (store_keeps_file _ _ _ _ _ _ S Hsrc Hne) as R1.
  apply read_lookup in R1. rewrite R1.
  pose proof (store_lookup _ _ _ _ S) as R2. apply read_lookup in R2. rewrite R2.
  rewrite (store_store _ _ _ _ _ S). destruct d. reflexivity.
Qed.

Lemma copy2_ok src dst s s' u :
  copy2 src dst s = (s', inr u) ->
  exists d n',
    lookup src (fs s) = Some (File d)
    /\ locked (copy2_target src dst (fs s)) (fs s) = false
    /\ store (copy2_target src dst (fs s)) d (fs s) = inr n'
    /\ s' = mkState n' (stdout s) (manifest_assets s) (copy_calls s ++ [(src, dst)]).
Proof.
  unfold copy2.
  destruct (path_eqb src (copy2_target src dst (fs s)) && exists_ src (fs s)) eqn:SF;
    [discriminate|].
  destruct (read src (fs s)) as [e|d] eqn:R; [discriminate|].
  apply read_lookup in R.
  assert (Hne : src <> copy2_target src dst (fs s)).
  { apply path_eqb_eq. apply andb_false_iff in SF as [SF|SF]; [exact SF|].
    unfold exists_ in SF. rewrite R in SF. discriminate. }
  intros H. apply bind_ok in H as (s1 & [] & H1 & H).
  apply bind_ok in H as (s2 & [] & H2 & H3).
  apply open_w_ok in H1 as (L & n1 & S1 & ->).
  unfold write_close in H2. apply sys_ok in H2 as (n2 & S2 & ->).
  unfold copystat in H3. apply sys_ok in H3 as (n3 & S3 & ->).
  cbn [fs stdout manifest_assets copy_calls] in *.
  unfold rw in S1. rewrite (fill_after _ _ _ _ _ _ S1) in S2.
  rewrite (copystat_after _ _ _ _ _ R Hne S2) in S3.
  exists d, n3. auto.
Qed.

Lemma path_eqb_neq p q : p <> q -> path_eqb p q = false.
Proof. unfold path_eqb. destruct (list_eq_dec string_dec p q); congruence. Qed.

Lemma copy2_run src dst s d n' :
  lookup src (fs s) = Some (File d) ->
  src <> copy2_target src dst (fs s) ->
  locked (copy2_target src dst (fs s)) (fs s) = false ->
  store (copy2_target src dst (fs s)) d (fs s) = inr n' ->
  copy2 src dst s
  = (mkState n' (stdout s) (manifest_assets s) (copy_calls s ++ [(src, dst)]),
     inr tt).
Proof.
  intros Hsrc Hne L S. unfold copy2.
  rewrite (path_eqb_neq _ _ Hne). cbn [andb].
  pose proof Hsrc as R. apply read_lookup in R. rewrite R.
  destruct (store_any _ (rw []) _ _ _ S) as (n1 & S1).
  destruct (store_any _ (rw (data d)) _ _ _ S) as (n2 & S2).
  pose proof S2 as S2'. unfold rw in S1, S2'.
  rewrite <- (fill_after _ _ _ _ _ _ S1) in S2'.
  erewrite bind_run; [|apply open_w_run; cbn [fs]; eauto].
  unfold bind, write_close, copystat, sys. cbn [fs stdout manifest_assets copy_calls].
  rewrite S2'. cbn [fs stdout manifest_assets copy_calls].
  rewrite (copystat_after _ _ _ _ _ Hsrc Hne S2), S. reflexivity.
Qed.

Lemma copy2_done src dst s d :
  lookup src (fs s) = Some (File d) ->
  lookup (copy2_target src dst (fs s)) (fs s) = Some (File d) ->
  src <> copy2_target src dst (fs s) ->
  writable d = true ->
  copy2 src dst s
  = (mkState (fs s) (stdout s) (manifest_assets s) (copy_calls s ++ [(src, dst)]),
     inr tt).
Proof.
  intros Hsrc Htgt Hne Hw.
  apply (copy2_run src dst s d (fs s)); auto.
  - unfold locked. now rewrite Htgt, Hw.
  - now apply store_id.
Qed.

Lemma copy2_refused src dst s d :
  lookup src (fs s) = Some (File d) ->
  src <> copy2_target src dst (fs s) ->
  locked (copy2_target src dst (fs s)) (fs s) = true ->
  copy2 src dst s
  = (mkState (fs s) (stdout s) (manifest_assets s) (copy_calls s ++ [(src, dst)]),
     inl PermissionError).
Proof.
  intros Hsrc Hne L. unfold copy2.
  rewrite (path_eqb_neq _ _ Hne). cbn [andb].
  apply read_lookup in Hsrc. rewrite Hsrc.
  apply bind_raise. unfold open_w. cbn [fs]. now rewrite L.
Qed.

(** *** One file of a category *)

Lemma process_file_unfold c x :
  process_file (kind c) (exts c) ["processed_assets"; subdir c] (src c x)
  = if recognized (exts c) x then
      print (line c x) ;;
      copy2 (src c x) (dst c x) ;;
      append_asset (entry (kind c) (src c x) (dst c x))
    else ret tt.
Proof. reflexivity. Qed.

Lemma process_file_skip c x s :
  recognized (exts c) x = false ->
  process_file (kind c) (exts c) ["processed_assets"; subdir c] (src c x) s
  = (s, inr tt).
Proof. intros H. rewrite process_file_unfold, H. reflexivity. Qed.

Lemma process_file_ok c x s s' u :
  recognized (exts c) x = true ->
  process_file (kind c) (exts c) ["processed_assets"; subdir c] (src c x) s
  = (s', inr u) ->
  exists n',
    pstep (fs s) n' /\ copied n' c x
    /\ s' = mkState n' (stdout s ++ [line c x])
                    (manifest_assets s ++ [entry (kind c) (src c x) (dst c x)])
                    (copy_calls s ++ [(src c x, dst c x)]).
Proof.
  intros Hr. rewrite process_file_unfold, Hr. intros H.
  apply bind_ok in H as (s1 & [] & H1 & H).
  apply bind_ok in H as (s2 & [] & H2 & H3).
  unfold print in H1. injection H1 as <-.
  apply copy2_ok in H2 as (d & n' & Hsrc & _ & Hst & ->).
  unfold append_asset in H3. injection H3 as <-.
  cbn [fs stdout manifest_assets copy_calls] in *.
  exists n'. split; [eapply pstep_copy; eauto|]. split; [|reflexivity].
  assert (Hs : pstep (fs s) n') by (eapply pstep_copy; eauto).
  exists d. rewrite (pstep_target _ _ c x Hs).
  split.
  - rewrite <- Hsrc. apply pstep_frame. exact Hs.
  - eapply store_lookup; eauto.
Qed.

Lemma src_not_target c x n : src c x <> copy2_target (src c x) (dst c x) n.
Proof.
  destruct (target_head c x n) as (q & -> & _). unfold src. intros E.
  inversion E.
Qed.

Lemma process_file_done c x s :
  recognized (exts c) x = true ->
  copied (fs s) c x ->
  (forall d, lookup (src c x) (fs s) = Some (File d) -> writable d = true) ->
  process_file (kind c) (exts c) ["processed_assets"; subdir c] (src c x) s
  = (mkState (fs s) (stdout s ++ [line c x])
             (manifest_assets s ++ [entry (kind c) (src c x) (dst c x)])
             (copy_calls s ++ [(src c x, dst c x)]),
     inr tt).
Proof.
  intros Hr (d & Hsrc & Htgt) Hw. rewrite process_file_unfold, Hr.
  unfold bind at 1. unfold print at 1.
  erewrite bind_run;
    [|apply (copy2_done _ _ _ d); cbn [fs stdout manifest_assets copy_calls];
      auto using src_not_target].
  reflexivity.
Qed.

(** The copy of a file that may not be written may not be written
    either: [copy2] is refused it. *)
Lemma process_file_refused c x s :
  recognized (exts c) x = true ->
  copied (fs s) c x ->
  locked (src c x) (fs s) = true ->
  exists s',
    process_file (kind c) (exts c) ["processed_assets"; subdir c] (src c x) s
    = (s', inl PermissionError)
    /\ fs s' = fs s.
Proof.
  intros Hr (d & Hsrc & Htgt) L. rewrite process_file_unfold, Hr.
  eexists. split.
  - unfold bind at 1. unfold print at 1. apply bind_raise.
    apply (copy2_refused _ _ _ d); cbn [fs stdout manifest_assets copy_calls];
      auto using src_not_target.
    unfold locked in *. rewrite Htgt. now rewrite Hsrc in L.
  - reflexivity.
Qed.

(** *** The loop over a category directory *)

Lemma logged_nil c s : logged c [] (fs s) s = s.
Proof. destruct s. unfold logged. simpl. now rewrite !app_nil_r. Qed.

Lemma logged_cons c x xs n1 n' s :
  logged c xs n' (logged c [x] n1 s) = logged c (x :: xs) n' s.
Proof. unfold logged. simpl. now rewrite <- !app_assoc. Qed.

Lemma glob_star_src c n :
  glob_star ["assets"; subdir c] n
  = map (src c) (map fst (listdir ["assets"; subdir c] n)).
Proof. unfold glob_star. now rewrite map_map. Qed.

Lemma loop_ok c xs : forall s s' u,
  for_each (map (src c) xs)
           (process_file (kind c) (exts c) ["processed_assets"; subdir c]) s
  = (s', inr u) ->
  exists n',
    psteps (fs s) n'
    /\ (forall x, In x (filter (recognized (exts c)) xs) -> copied n' c x)
    /\ s' = logged c (filter (recognized (exts c)) xs) n' s.
Proof.
  induction xs as [|x xs IH]; intros s s' u H.
  - injection H as <- _. exists (fs s). simpl.
    split; [constructor|]. split; [tauto|]. now rewrite logged_nil.
  - simpl in H. apply bind_ok in H as (s1 & [] & H1 & H2).
    destruct (recognized (exts c) x) eqn:Hr.
    + apply (process_file_ok _ _ _ _ _ Hr) in H1 as (n1 & Hs & Hc & ->).
      apply IH in H2 as (n' & Hss & Hcs & ->). simpl in Hss.
      exists n'. simpl. rewrite Hr.
      split; [eapply psteps_trans; [apply psteps_one; eauto | eauto]|].
      split.
      * intros y [<-|Hy]; [eapply psteps_copied; eauto | auto].
      * apply logged_cons.
    + rewrite (process_file_skip _ _ _ Hr) in H1. injection H1 as <-.
      apply IH in H2 as (n' & Hss & Hcs & ->).
      exists n'. simpl. rewrite Hr. auto.
Qed.

Lemma loop_done c xs : forall s,
  (forall x, In x (filter (recognized (exts c)) xs) -> copied (fs s) c x) ->
  (forall x d, In x (filter (recognized (exts c)) xs) ->
               lookup (src c x) (fs s) = Some (File d) -> writable d = true) ->
  for_each (map (src c) xs)
           (process_file (kind c) (exts c) ["processed_assets"; subdir c]) s
  = (logged c (filter (recognized (exts c)) xs) (fs s) s, inr tt).
Proof.
  induction xs as [|x xs IH]; intros s Hc Hw.
  - simpl. now rewrite logged_nil.
  - simpl in *. destruct (recognized (exts c) x) eqn:Hr.
    + assert (Hx : copied (fs s) c x) by (apply Hc; now left).
      assert (Hxs : forall y, In y (filter (recognized (exts c)) xs) ->
                              copied (fs s) c y) by (intros y Hy; apply Hc; now right).
      erewrite bind_run;
        [|apply process_file_done; auto; intros d; apply Hw; now left].
      rewrite IH; [|exact Hxs|intros y d Hy; apply Hw; now right].
      simpl. f_equal. apply logged_cons.
    + erewrite bind_run; [|apply process_file_skip; auto]. auto.
Qed.

Lemma loop_refused c xs : forall s,
  (forall x, In x (filter (recognized (exts c)) xs) -> copied (fs s) c x) ->
  existsb (fun x => locked (src c x) (fs s)) (filter (recognized (exts c)) xs)
  = true ->
  exists s',
    for_each (map (src c) xs)
             (process_file (kind c) (exts c) ["processed_assets"; subdir c]) s
    = (s', inl PermissionError)
    /\ fs s' = fs s.
Proof.
  induction xs as [|x xs IH]; intros s Hc Hb; [discriminate|].
  cbn [map for_each filter] in *.
  destruct (recognized (exts c) x) eqn:Hr.
  - cbn [existsb] in Hb.
    assert (Hx : copied (fs s) c x) by (apply Hc; now left).
    destruct (locked (src c x) (fs s)) eqn:L.
    + destruct (process_file_refused c x s Hr Hx L) as (s' & H & E).
      exists s'. split; [now apply bind_raise | exact E].
    + assert (H1 := process_file_done c x s Hr Hx).
      rewrite (bind_run _ _ _ _ _ (H1 ltac:(intros d Hd; unfold locked in L;
                                             rewrite Hd in L;
                                             now apply negb_false_iff in L))).
      match goal with |- context [for_each _ _ ?s1] =>
        destruct (IH s1) as (s' & H & E) end.
      * cbn [fs]. intros y Hy. apply Hc. now right.
      * exact Hb.
      * exists s'. split; [exact H | exact E].
  - rewrite (bind_run _ _ _ _ _ (process_file_skip c x s Hr)). apply IH; auto.
Qed.

(** *** One category *)

Lemma names_absent c n : exists_ ["assets"; subdir c] n = false -> names c n = [].
Proof.
  unfold names, listdir, exists_.
  destruct (lookup ["assets"; subdir c] n); [discriminate|reflexivity].
Qed.

Lemma process_dir_unfold c :
  process_dir self (subdir c) (kind c) (exts c)
  = (present <- ask (exists_ ["assets"; subdir c]) ;;
     if negb present then ret tt
     else
       sys (mkdir true ["processed_assets"; subdir c]) ;;
       files <- ask (glob_star ["assets"; subdir c]) ;;
       for_each files
         (process_file (kind c) (exts c) ["processed_assets"; subdir c])).
Proof. reflexivity. Qed.

Lemma process_dir_ok c s s' u :
  process_dir self (subdir c) (kind c) (exts c) s = (s', inr u) ->
  exists n',
    psteps (fs s) n'
    /\ (exists_ ["assets"; subdir c] (fs s) = true ->
        is_dir ["processed_assets"; subdir c] n' = true)
    /\ (forall x, In x (names c (fs s)) -> copied n' c x)
    /\ s' = logged c (names c (fs s)) n' s.
Proof.
  rewrite process_dir_unfold. unfold ask. intros H.
  apply bind_ok in H as (s0 & present & H0 & H). injection H0 as <- <-.
  destruct (exists_ ["assets"; subdir c] (fs s)) eqn:Hp; cbn [negb] in H.
  - apply bind_ok in H as (s1 & [] & H1 & H).
    apply sys_ok in H1 as (n1 & Hm & ->).
    apply bind_ok in H as (s2 & files & H2 & H). injection H2 as <- <-.
    cbn [fs] in H. rewrite glob_star_src in H.
    assert (Hs1 : psteps (fs s) n1).
    { apply psteps_one. apply pstep_mkdir with (q := [subdir c]); auto. }
    apply loop_ok in H as (n' & Hss & Hcs & ->).
    cbn [fs] in *.
    fold (names c n1) in *. rewrite (psteps_names _ _ c Hs1) in *.
    exists n'. split; [eapply psteps_trans; eauto|].
    split; [intros _; eapply psteps_keeps_dir; eauto; eapply mkdir_is_dir; eauto|].
    split; [exact Hcs|]. reflexivity.
  - injection H as <- _. exists (fs s). rewrite (names_absent _ _ Hp).
    split; [constructor|]. split; [discriminate|]. split; [simpl; tauto|].
    now rewrite logged_nil.
Qed.

Lemma process_dir_done c s :
  (exists_ ["assets"; subdir c] (fs s) = true ->
   is_dir ["processed_assets"; subdir c] (fs s) = true) ->
  (forall x, In x (names c (fs s)) -> copied (fs s) c x) ->
  (forall x d, In x (names c (fs s)) ->
               lookup (src c x) (fs s) = Some (File d) -> writable d = true) ->
  process_dir self (subdir c) (kind c) (exts c) s
  = (logged c (names c (fs s)) (fs s) s, inr tt).
Proof.
  intros Hd Hc Hw. rewrite process_dir_unfold. unfold ask.
  unfold bind at 1.
  destruct (exists_ ["assets"; subdir c] (fs s)) eqn:Hp; cbn [negb].
  - erewrite bind_run; [|apply sys_id; apply mkdir_id; auto].
    unfold bind at 1. rewrite glob_star_src. now apply loop_done.
  - rewrite (names_absent _ _ Hp). now rewrite logged_nil.
Qed.

Lemma process_dir_refused c s :
  (exists_ ["assets"; subdir c] (fs s) = true ->
   is_dir ["processed_assets"; subdir c] (fs s) = true) ->
  (forall x, In x (names c (fs s)) -> copied (fs s) c x) ->
  refused c (fs s) = true ->
  exists s',
    process_dir self (subdir c) (kind c) (exts c) s = (s', inl PermissionError)
    /\ fs s' = fs s.
Proof.
  intros Hd Hc Hb. rewrite process_dir_unfold. unfold ask.
  unfold bind at 1.
  destruct (exists_ ["assets"; subdir c] (fs s)) eqn:Hp; cbn [negb].
  - erewrite bind_run; [|apply sys_id; apply mkdir_id; auto].
    unfold bind at 1. rewrite glob_star_src. now apply loop_refused.
  - unfold refused in Hb. rewrite (names_absent _ _ Hp) in Hb. discriminate.
Qed.

Lemma not_refused c n :
  refused c n = false ->
  forall x d, In x (names c n) -> lookup (src c x) n = Some (File d) ->
              writable d = true.
Proof.
  unfold refused. intros Hb x d Hx Hd.
  destruct (writable d) eqn:W; [reflexivity|].
  assert (existsb (fun x => locked (src c x) n) (names c n) = true); [|congruence].
  apply existsb_exists. exists x. split; [exact Hx|].
  unfold locked. now rewrite Hd, W.
Qed.

End Methods.

(** ** A whole run *)

Section WholeRun.

Import FS Py AssetProcessor Run.
Local Open Scope py_scope.

Lemma generate_manifest_unfold :
  generate_manifest self
  = (open_w manifest_path ;;
     assets <- get_assets ;;
     write_close manifest_path (manifest_text assets) ;;
     print "Generated manifest: processed_assets/asset_manifest.json").
Proof. reflexivity. Qed.

Lemma process_all_assets_unfold :
  process_all_assets self
  = (print "Starting asset processing..." ;;
     present <- ask (exists_ ["assets"]) ;;
     if negb present then
       print "Assets directory 'assets' not found!" ;; ret false
     else
       sys (mkdir true ["processed_assets"]) ;;
       process_dir self (subdir textures) (kind textures) (exts textures) ;;
       process_dir self (subdir models) (kind models) (exts models) ;;
       process_dir self (subdir sounds) (kind sounds) (exts sounds) ;;
       process_dir self (subdir shaders) (kind shaders) (exts shaders) ;;
       generate_manifest self ;;
       print "Asset processing complete!" ;;
       ret true).
Proof. reflexivity. Qed.

Lemma run_unfold root :
  run root
  = (success <- process_all_assets self ;; ret (if success then 0 else 1))
      (start root).
Proof. reflexivity. Qed.

Lemma generate_manifest_ok s s' u :
  generate_manifest self s = (s', inr u) ->
  exists n1 n',
    locked manifest_path (fs s) = false
    /\ store manifest_path (rw []) (fs s) = inr n1
    /\ store manifest_path (rw (manifest_text (manifest_assets s))) n1 = inr n'
    /\ s' = mkState n'
             (stdout s ++ ["Generated manifest: processed_assets/asset_manifest.json"])
             (manifest_assets s) (copy_calls s).
Proof.
  rewrite generate_manifest_unfold. intros H.
  apply bind_ok in H as (s1 & [] & H1 & H). apply open_w_ok in H1 as (L & n1 & S1 & ->).
  apply bind_ok in H as (s2 & assets & H2 & H). injection H2 as <- <-.
  apply bind_ok in H as (s3 & [] & H3 & H). apply sys_ok in H3 as (n' & S2 & ->).
  unfold print in H. injection H as <-.
  cbn [fs stdout manifest_assets copy_calls] in *.
  pose proof S1 as S1'. unfold rw in S1'.
  rewrite (fill_after _ _ _ _ _ _ S1'), <- (store_store _ _ _ _ _ S1) in S2.
  eauto 6.
Qed.

Lemma generate_manifest_run s n' :
  locked manifest_path (fs s) = false ->
  store manifest_path (rw (manifest_text (manifest_assets s))) (fs s) = inr n' ->
  generate_manifest self s
  = (mkState n'
       (stdout s ++ ["Generated manifest: processed_assets/asset_manifest.json"])
       (manifest_assets s) (copy_calls s),
     inr tt).
Proof.
  intros L S. rewrite generate_manifest_unfold.
  destruct (store_any _ (rw []) _ _ _ S) as (n1 & S1).
  pose proof S as S2. unfold rw in S1, S2.
  rewrite <- (fill_after _ _ _ _ _ _ S1) in S2.
  erewrite bind_run; [|apply open_w_run; eauto].
  unfold bind, write_close, get_assets, sys, print.
  cbn [fs stdout manifest_assets copy_calls]. rewrite S2. reflexivity.
Qed.

Lemma generate_manifest_done s :
  lookup manifest_path (fs s)
  = Some (File (rw (manifest_text (manifest_assets s)))) ->
  generate_manifest self s
  = (mkState (fs s)
       (stdout s ++ ["Generated manifest: processed_assets/asset_manifest.json"])
       (manifest_assets s) (copy_calls s),
     inr tt).
Proof.
  intros Hm. apply generate_manifest_run.
  - unfold locked. now rewrite Hm.
  - now apply store_id.
Qed.

Lemma in_categories c :
  In c categories -> c = textures \/ c = models \/ c = sounds \/ c = shaders.
Proof. simpl. intuition. Qed.

Lemma run_ok root s' code :
  run root = (s', inr code) ->
  (exists_ ["assets"] root = true /\ code = 0
   /\ psteps root (fs s') /\ settled (fs s') /\ s' = final (fs s'))
  \/ (exists_ ["assets"] root = false /\ code = 1 /\ s' = not_found root).
Proof.
  rewrite run_unfold, process_all_assets_unfold. unfold ask. intros H.
  apply bind_ok in H as (sz & success & H & Hret).
  apply bind_ok in H as (s0 & [] & H0 & H). unfold print in H0.
  injection H0 as <-.
  apply bind_ok in H as (s0' & present & H0 & H). injection H0 as <- <-.
  cbn [fs start] in H.
  destruct (exists_ ["assets"] root) eqn:Hp; cbn [negb] in H.
  - left. split; [reflexivity|].
    apply bind_ok in H as (s1 & [] & H1 & H). apply sys_ok in H1 as (n0 & Hm & ->).
    cbn [fs stdout manifest_assets copy_calls start app] in *.
    assert (P0 : psteps root n0).
    { apply psteps_one. apply pstep_mkdir with (q := []); auto. }
    apply bind_ok in H as (s2 & [] & H2 & H).
    apply process_dir_ok in H2 as (n1 & P1 & D1 & C1 & ->).
    apply bind_ok in H as (s3 & [] & H3 & H).
    apply process_dir_ok in H3 as (n2 & P2 & D2 & C2 & ->).
    apply bind_ok in H as (s4 & [] & H4 & H).
    apply process_dir_ok in H4 as (n3 & P3 & D3 & C3 & ->).
    apply bind_ok in H as (s5 & [] & H5 & H).
    apply process_dir_ok in H5 as (n4 & P4 & D4 & C4 & ->).
    apply bind_ok in H as (s6 & [] & H6 & H).
    apply generate_manifest_ok in H6 as (n5 & n6 & _ & S1 & S2 & ->).
    unfold print in H. injection H as <- <-. injection Hret as <- <-.
    cbn [fs stdout manifest_assets copy_calls logged app] in *.
    assert (P5 : psteps n4 n6).
    { eapply psteps_step; [apply psteps_one|];
        eapply pstep_manifest; eauto. }
    assert (Q1 : psteps n0 n6) by
      (repeat (eapply psteps_trans; [eassumption|]); constructor).
    assert (Q2 : psteps n1 n6) by
      (repeat (eapply psteps_trans; [eassumption|]); constructor).
    assert (Q3 : psteps n2 n6) by
      (repeat (eapply psteps_trans; [eassumption|]); constructor).
    assert (Q4 : psteps n3 n6) by
      (repeat (eapply psteps_trans; [eassumption|]); constructor).
    assert (Q0 : psteps root n6) by (eapply psteps_trans; eassumption).
    rewrite <- (psteps_names _ _ textures Q1) in *.
    rewrite <- (psteps_names _ _ models Q2) in *.
    rewrite <- (psteps_names _ _ sounds Q3) in *.
    rewrite <- (psteps_names _ _ shaders Q4) in *.
    assert (E : manifest_assets (final n6)
                = ((map (fun x => entry (kind textures) (src textures x) (dst textures x))
                        (names textures n6)
                    ++ map (fun x => entry (kind models) (src models x) (dst models x))
                           (names models n6))
                   ++ map (fun x => entry (kind sounds) (src sounds x) (dst sounds x))
                          (names sounds n6))
                  ++ map (fun x => entry (kind shaders) (src shaders x) (dst shaders x))
                         (names shaders n6)).
    { unfold final, entries, categories. cbn [manifest_assets flat_map].
      now rewrite app_nil_r, !app_assoc. }
    split; [reflexivity|]. split; [exact Q0|]. split.
    + unfold settled. split; [|split; [|split]].
      * eapply psteps_keeps_dir; [exact Q1|]. eapply mkdir_is_dir; eauto.
      * intros c Hc Hex.
        apply in_categories in Hc as [-> | [-> | [-> | ->]]].
        -- eapply psteps_keeps_dir; [exact Q2|]. apply D1.
           now rewrite <- (psteps_exists _ _ [subdir textures] Q1).
        -- eapply psteps_keeps_dir; [exact Q3|]. apply D2.
           now rewrite <- (psteps_exists _ _ [subdir models] Q2).
        -- eapply psteps_keeps_dir; [exact Q4|]. apply D3.
           now rewrite <- (psteps_exists _ _ [subdir sounds] Q3).
        -- eapply psteps_keeps_dir; [exact P5|]. apply D4.
           now rewrite <- (psteps_exists _ _ [subdir shaders] Q4).
      * intros c x Hc Hx.
        apply in_categories in Hc as [-> | [-> | [-> | ->]]].
        -- eapply psteps_copied; [exact Q2|]. now apply C1.
        -- eapply psteps_copied; [exact Q3|]. now apply C2.
        -- eapply psteps_copied; [exact Q4|]. now apply C3.
        -- eapply psteps_copied; [exact P5|]. now apply C4.
      * change (manifest_file self) with manifest_path.
        change (entries n6) with (manifest_assets (final n6)). rewrite E.
        eapply store_lookup; eauto.
    + unfold final, lines, entries, calls, categories.
      cbn [flat_map app fs]. rewrite !app_nil_r.
      f_equal; rewrite <- ?app_assoc; reflexivity.
  - right. apply bind_ok in H as (s1 & [] & H1 & H).
    unfold print in H1. injection H1 as <-. injection H as <- <-.
    injection Hret as <- <-. auto.
Qed.

Lemma run_done n :
  settled n -> rewritable n -> exists_ ["assets"] n = true ->
  run n = (final n, inr 0).
Proof.
  intros (Ho & Hd & Hc & Hm) Hw Hp.
  rewrite run_unfold, process_all_assets_unfold. unfold ask.
  unfold bind at 1. unfold bind at 1. unfold print at 1.
  unfold bind at 1. cbn [fs start]. rewrite Hp. cbn [negb].
  erewrite bind_run; [|apply sys_id; apply mkdir_id; exact Ho].
  erewrite bind_run;
    [|apply process_dir_done; cbn [fs logged];
      [intros; apply Hd; simpl; auto 6
      |intros; apply Hc; simpl; auto 6
      |intros x d Hx Hl; refine (Hw _ x d _ Hx Hl); simpl; auto 6]].
  erewrite bind_run;
    [|apply process_dir_done; cbn [fs logged];
      [intros; apply Hd; simpl; auto 6
      |intros; apply Hc; simpl; auto 6
      |intros x d Hx Hl; refine (Hw _ x d _ Hx Hl); simpl; auto 6]].
  erewrite bind_run;
    [|apply process_dir_done; cbn [fs logged];
      [intros; apply Hd; simpl; auto 6
      |intros; apply Hc; simpl; auto 6
      |intros x d Hx Hl; refine (Hw _ x d _ Hx Hl); simpl; auto 6]].
  erewrite bind_run;
    [|apply process_dir_done; cbn [fs logged];
      [intros; apply Hd; simpl; auto 6
      |intros; apply Hc; simpl; auto 6
      |intros x d Hx Hl; refine (Hw _ x d _ Hx Hl); simpl; auto 6]].
  cbn [fs stdout manifest_assets copy_calls logged start app].
  erewrite bind_run.
  2:{ apply generate_manifest_done.
      cbn [fs stdout manifest_assets copy_calls logged app].
      change (manifest_file self) with manifest_path in Hm. rewrite Hm.
      unfold entries, categories. cbn [flat_map].
      now rewrite app_nil_r, !app_assoc. }
  unfold bind, print, ret. cbn [fs stdout manifest_assets copy_calls logged app].
  unfold final, lines, entries, calls, categories.
  cbn [flat_map app]. rewrite !app_nil_r.
  do 2 f_equal; rewrite <- ?app_assoc; reflexivity.
Qed.

(** On the file system a completed run left, a file that may not be
    written stops the next run at its copy. *)
Lemma run_refused n c x d :
  settled n -> exists_ ["assets"] n = true ->
  In c categories -> In x (names c n) ->
  lookup (src c x) n = Some (File d) -> writable d = false ->
  exists s, run n = (s, inl PermissionError) /\ fs s = n.
Proof.
  intros (Ho & Hd & Hc & Hm) Hp Hcat Hx Hl Hw.
  assert (Hb : refused c n = true).
  { unfold refused. apply existsb_exists. exists x. split; [exact Hx|].
    unfold locked. now rewrite Hl, Hw. }
  rewrite run_unfold, process_all_assets_unfold. unfold ask.
  unfold bind at 1. unfold bind at 1. unfold print at 1.
  unfold bind at 1. cbn [fs start]. rewrite Hp. cbn [negb].
  erewrite bind_run; [|apply sys_id; apply mkdir_id; exact Ho].
  destruct (refused textures n) eqn:Rtextures.
  { match goal with
    | |- context [bind (process_dir self (subdir textures) _ _) _ ?s0] =>
        destruct (process_dir_refused textures s0) as (s' & H & E)
    end.
    - cbn [fs logged]. intros. apply Hd; simpl; auto 6.
    - cbn [fs logged]. intros. apply Hc; simpl; auto 6.
    - cbn [fs logged]. assumption.
    - rewrite (bind_raise _ _ _ _ _ H). exists s'. split; [reflexivity | exact E]. }
  erewrite bind_run;
    [|apply process_dir_done; cbn [fs logged];
      [intros; apply Hd; simpl; auto 6
      |intros; apply Hc; simpl; auto 6
      |now apply not_refused]].
  destruct (refused models n) eqn:Rmodels.
  { match goal with
    | |- context [bind (process_dir self (subdir models) _ _) _ ?s0] =>
        destruct (process_dir_refused models s0) as (s' & H & E)
    end.
    - cbn [fs logged]. intros. apply Hd; simpl; auto 6.
    - cbn [fs logged]. intros. apply Hc; simpl; auto 6.
    - cbn [fs logged]. assumption.
    - rewrite (bind_raise _ _ _ _ _ H). exists s'. split; [reflexivity | exact E]. }
  erewrite bind_run;
    [|apply process_dir_done; cbn [fs logged];
      [intros; apply Hd; simpl; auto 6
      |intros; apply Hc; simpl; auto 6
      |now apply not_refused]].
  destruct (refused sounds n) eqn:Rsounds.
  { match goal with
    | |- context [bind (process_dir self (subdir sounds) _ _) _ ?s0] =>
        destruct (process_dir_refused sounds s0) as (s' & H & E)
    end.
    - cbn [fs logged]. intros. apply Hd; simpl; auto 6.
    - cbn [fs logged]. intros. apply Hc; simpl; auto 6.
    - cbn [fs logged]. assumption.
    - rewrite (bind_raise _ _ _ _ _ H). exists s'. split; [reflexivity | exact E]. }
  erewrite bind_run;
    [|apply process_dir_done; cbn [fs logged];
      [intros; apply Hd; simpl; auto 6
      |intros; apply Hc; simpl; auto 6
      |now apply not_refused]].
  destruct (refused shaders n) eqn:Rshaders.
  { match goal with
    | |- context [bind (process_dir self (subdir shaders) _ _) _ ?s0] =>
        destruct (process_dir_refused shaders s0) as (s' & H & E)
    end.
    - cbn [fs logged]. intros. apply Hd; simpl; auto 6.
    - cbn [fs logged]. intros. apply Hc; simpl; auto 6.
    - cbn [fs logged]. assumption.
    - rewrite (bind_raise _ _ _ _ _ H). exists s'. split; [reflexivity | exact E]. }
  exfalso. apply in_categories in Hcat as [-> | [-> | [-> | ->]]]; congruence.
Qed.

End WholeRun.

(** ** The shader compiler *)

Section Shaders.

Import FS Py CompileShaders.
Local Open Scope py_scope.

Lemma rglob_node_below ext n : forall prefix p,
  In p (rglob_node ext prefix n) -> exists rel, rel <> [] /\ p = prefix ++ rel.
Proof.
  induction n as [d|es IH] using node_ind'; intros prefix p; simpl; [tauto|].
  rewrite in_app_iff. intros [H|H].
  - apply in_map_iff in H as (e & <- & _). exists [fst e]. split; [discriminate|reflexivity].
  - induction IH as [|[x c] r Hc _ IHr]; simpl in H; [tauto|].
    apply in_app_iff in H as [H|H]; [|auto].
    apply Hc in H as (rel & Hrel & ->). exists (x :: rel).
    split; [discriminate|]. unfold child. now rewrite <- app_assoc.
Qed.

Lemma unique_in l : forall yielded p, In p (unique yielded l) -> In p l.
Proof.
  induction l as [|q l IH]; intros yielded p; simpl; [tauto|].
  destruct (existsb (path_eqb q) yielded).
  - intros H. right. eapply IH; eauto.
  - intros [H|H]; [now left | right; eapply IH; eauto].
Qed.

Lemma shader_files_below input n p :
  In p (shader_files input n) -> exists rel, rel <> [] /\ p = input ++ rel.
Proof.
  unfold shader_files, rglob. rewrite in_app_iff.
  destruct (lookup input n) as [m|]; simpl; [|tauto].
  intros [H|H]; apply unique_in in H; eapply rglob_node_below; eauto.
Qed.

Lemma relative_to_app base rel : relative_to (base ++ rel) base = inr rel.
Proof.
  induction base as [|b base IH]; simpl; [now destruct rel|].
  now rewrite String.eqb_refl.
Qed.

Lemma output_file_ok input output rel :
  rel <> [] -> exists out, output_file input output (input ++ rel) = inr out.
Proof.
  intros Hrel. unfold output_file. rewrite relative_to_app.
  unfold with_suffix. destruct rel; [congruence|]. eauto.
Qed.

(** [compile_shader] prints its line, touches nothing else and returns
    [True]. *)
Lemma compile_shader_true input_file output_file shader_type s :
  compile_shader input_file output_file shader_type s
  = (mkState (fs s)
       (stdout s ++ ["Compiling " ++ str input_file ++ " -> " ++ str output_file]%string)
       (manifest_assets s) (copy_calls s),
     inr true).
Proof. reflexivity. Qed.

Lemma compile_all_ok input output files : forall s,
  (forall p, In p files -> exists rel, rel <> [] /\ p = input ++ rel) ->
  compile_all input output files s
  = (mkState (fs s) (stdout s ++ map (report input output) files)
             (manifest_assets s) (copy_calls s),
     inr None).
Proof.
  induction files as [|f files IH]; intros s Hf.
  - simpl. unfold ret. destruct s; simpl. now rewrite app_nil_r.
  - destruct (Hf f (or_introl eq_refl)) as (rel & Hrel & ->).
    destruct (output_file_ok input output rel Hrel) as (out & Hout).
    cbn [compile_all map]. unfold report at 1. rewrite Hout.
    unfold lift, bind at 1, ret at 1.
    unfold bind at 1. rewrite compile_shader_true. cbn [negb].
    rewrite IH; [|intros p Hp; apply Hf; now right].
    cbn [fs stdout manifest_assets copy_calls]. now rewrite <- app_assoc.
Qed.

Lemma main_unfold input output s :
  main input output s
  = (present <- ask (exists_ input) ;;
     if negb present then
       print ("Error: Input directory " ++ str input ++ " does not exist")%string ;;
       ret 1
     else
       sys (mkdir_parents output) ;;
       hlsl <- ask (rglob ".hlsl" input) ;;
       glsl <- ask (rglob ".glsl" input) ;;
       early <- compile_all input output (hlsl ++ glsl) ;;
       match early with
       | Some code => ret code
       | None =>
           print ("Successfully compiled " ++ PyStr.of_nat (length (hlsl ++ glsl))
                  ++ " shaders")%string ;;
           ret 0
       end) s.
Proof. reflexivity. Qed.

Lemma run_compiles root input output n1 :
  exists_ input root = true ->
  mkdir_parents output root = inr n1 ->
  run input output root = (compiled input output n1, inr 0).
Proof.
  intros Hin Hout. unfold run. rewrite main_unfold.
  unfold ask, bind at 1. cbn [fs start]. rewrite Hin. cbn [negb].
  unfold bind at 1, sys. cbn [fs start stdout manifest_assets copy_calls].
  rewrite Hout.
  unfold bind at 1. unfold bind at 1. cbn [fs].
  unfold bind at 1. fold (shader_files input n1).
  rewrite compile_all_ok; [|intros p; apply shader_files_below].
  reflexivity.
Qed.

Lemma run_missing root input output :
  exists_ input root = false ->
  run input output root
  = (mkState root ["Error: Input directory " ++ str input ++ " does not exist"]%string
             [] [],
     inr 1).
Proof.
  intros Hin. unfold run. rewrite main_unfold.
  unfold ask, bind at 1. cbn [fs start]. rewrite Hin. reflexivity.
Qed.

Lemma run_raises root input output e :
  exists_ input root = true ->
  mkdir_parents output root = inl e ->
  run input output root = (start root, inl e).
Proof.
  intros Hin Hout. unfold run. rewrite main_unfold.
  unfold ask, bind at 1. cbn [fs start]. rewrite Hin. cbn [negb].
  unfold bind at 1, sys. cbn [fs start]. rewrite Hout. reflexivity.
Qed.

End Shaders.

(** ** What a completed run selected *)

Section Selection.

Import FS Json Py AssetProcessor Run.

Lemma run_missing_assets root :
  exists_ ["assets"] root = false -> run root = (not_found root, inr 1).
Proof.
  intros Hp. rewrite run_unfold, process_all_assets_unfold.
  unfold ask, bind, print. cbn [fs start]. rewrite Hp. reflexivity.
Qed.

Lemma run_completed root s :
  run root = (s, inr 0) ->
  exists_ ["assets"] root = true
  /\ psteps root (fs s) /\ settled (fs s) /\ s = final (fs s).
Proof.
  intros H. apply run_ok in H as [(Hp & _ & H) | (_ & H & _)];
    [auto | discriminate].
Qed.

Lemma names_no_assets c root :
  exists_ ["assets"] root = false -> names c root = [].
Proof.
  intros Hp. apply names_absent. revert Hp. unfold exists_. simpl.
  destruct root as [d|es]; [reflexivity|].
  destruct (assoc "assets" es); [discriminate|reflexivity].
Qed.

Lemma subdir_inj c c' :
  In c categories -> In c' categories -> subdir c = subdir c' -> c = c'.
Proof.
  intros Hc Hc'.
  apply in_categories in Hc as [-> | [-> | [-> | ->]]];
    apply in_categories in Hc' as [-> | [-> | [-> | ->]]];
    intros E; try reflexivity; discriminate E.
Qed.



Lemma in_names c x root :
  In x (names c root) <->
  recognized (exts c) x = true /\ exists nd, lookup (src c x) root = Some nd.
Proof.
  unfold names, listdir, src. rewrite filter_In. simpl.
  destruct root as [d|es]; simpl;
    [split; [tauto | intros (_ & nd & H); discriminate]|].
  destruct (assoc "assets" es) as [[d|es1]|]; simpl;
    try (split; [tauto | intros (_ & nd & H); discriminate]).
  destruct (assoc (subdir c) es1) as [[d|es2]|]; simpl;
    try (split; [tauto | intros (_ & nd & H); discriminate]).
  split.
  - intros (Hin & Hr). split; [exact Hr|].
    apply (proj1 (in_own_fst _ _)) in Hin. apply in_assoc in Hin as (nd & ->). eauto.
  - intros (Hr & nd & H). split; [|exact Hr].
    destruct (assoc x es2) eqn:A; [|discriminate].
    apply (proj2 (in_own_fst _ _)). eapply assoc_in; eauto.
Qed.

End Selection.

(** ** Runs that complete *)

Section Completion.

Import FS Json Py AssetProcessor Run.
Local Open Scope py_scope.

Lemma clean_mkdir n n' c :
  clean n -> c <> "asset_manifest.json" ->
  mkdir true ["processed_assets"; c] n = inr n' ->
  clean n' /\ is_dir ["processed_assets"; c] n' = true.
Proof.
  intros (Q1 & Q2 & Q3 & Q4) Hc H. split; [|eapply mkdir_is_dir; eauto].
  split; [|split; [|split]].
  - eapply mkdir_keeps_dir; eauto.
  - intros c'. now rewrite (mkdir_is_file _ _ _ _ ["processed_assets"; c'] H).
  - intros c' x. rewrite (mkdir_is_dir_other _ _ _ _ _ H); [apply Q3 | discriminate].
  - rewrite (mkdir_is_dir_other _ _ _ _ _ H); [exact Q4|].
    unfold manifest_path. congruence.
Qed.

Lemma clean_store n n' c x d :
  clean n -> store ["processed_assets"; c; x] d n = inr n' -> clean n'.
Proof.
  intros (Q1 & Q2 & Q3 & Q4) H.
  split; [|split; [|split]].
  - now rewrite (store_is_dir _ _ _ _ ["processed_assets"] H).
  - intros c'. rewrite (store_is_file _ _ _ _ _ H); [apply Q2 | discriminate].
  - intros c' x'. now rewrite (store_is_dir _ _ _ _ _ H).
  - now rewrite (store_is_dir _ _ _ _ _ H).
Qed.

(** A file whose place in the output directory is free is copied
    there. *)
Lemma process_file_runs c x s :
  clean (fs s) ->
  is_dir ["processed_assets"; subdir c] (fs s) = true ->
  recognized (exts c) x = true ->
  is_file (src c x) (fs s) = true ->
  lookup (dst c x) (fs s) = None ->
  exists d s',
    process_file (kind c) (exts c) ["processed_assets"; subdir c] (src c x) s
    = (s', inr tt)
    /\ store (dst c x) d (fs s) = inr (fs s').
Proof.
  intros Hcl Hd Hr Hf Hfree. rewrite process_file_unfold, Hr.
  unfold is_file in Hf.
  destruct (lookup (src c x) (fs s)) as [[d|es]|] eqn:Hsrc; try discriminate.
  assert (Ht : copy2_target (src c x) (dst c x) (fs s) = dst c x).
  { unfold copy2_target, is_dir. now rewrite Hfree. }
  destruct (store_ok ["processed_assets"; subdir c] x d (fs s) Hd) as (n2 & S).
  { destruct Hcl as (_ & _ & Q3 & _). apply Q3. }
  simpl app in S.
  exists d. eexists. split.
  - unfold bind at 1. unfold print at 1.
    erewrite bind_run.
    2:{ apply (copy2_run _ _ _ d n2); cbn [fs stdout manifest_assets copy_calls];
          rewrite ?Ht; auto.
        - unfold src, dst. discriminate.
        - unfold locked. now rewrite Hfree. }
    unfold append_asset. reflexivity.
  - exact S.
Qed.

Lemma psteps_sources_ok n n' : psteps n n' -> sources_ok n -> sources_ok n'.
Proof.
  intros Hs Hn c x Hc Hx. rewrite (psteps_names _ _ c Hs) in Hx.
  unfold is_file, src. rewrite (psteps_frame _ _ [subdir c; x] Hs).
  now apply Hn.
Qed.

Lemma loop_runs c xs : forall s,
  NoDup xs ->
  clean (fs s) ->
  is_dir ["processed_assets"; subdir c] (fs s) = true ->
  (forall x, In x (filter (recognized (exts c)) xs) ->
             is_file (src c x) (fs s) = true) ->
  (forall x, In x xs -> lookup (dst c x) (fs s) = None) ->
  exists s',
    for_each (map (src c) xs)
             (process_file (kind c) (exts c) ["processed_assets"; subdir c]) s
    = (s', inr tt)
    /\ clean (fs s')
    /\ forall a p, a <> subdir c ->
                   lookup ("processed_assets" :: a :: p) (fs s')
                   = lookup ("processed_assets" :: a :: p) (fs s).
Proof.
  induction xs as [|x xs IH]; intros s Hnd Hcl Hd Hf Hfree.
  - exists s. auto.
  - inversion Hnd as [|? ? Hx Hxs]; subst.
    cbn [map for_each filter] in *.
    destruct (recognized (exts c) x) eqn:Hr.
    + destruct (process_file_runs c x s Hcl Hd Hr) as (d & s1 & H1 & S).
      { apply Hf. now left. } { apply Hfree. now left. }
      destruct (IH s1 Hxs) as (s' & H2 & Hcl2 & Hfr2).
      * eapply clean_store; eauto.
      * now rewrite (store_is_dir _ _ _ _ _ S).
      * intros y Hy. unfold is_file, src.
        rewrite (store_frame _ _ _ _ _ "assets" [subdir c; y] S assets_not_output).
        apply Hf. now right.
      * intros y Hy. apply (store_absent _ _ _ _ _ S).
        -- unfold dst. intros E. injection E as ->. contradiction.
        -- apply Hfree. now right.
      * exists s'. split; [now rewrite (bind_run _ _ _ _ _ H1)|].
        split; [exact Hcl2|]. intros a p Ha. rewrite (Hfr2 a p Ha).
        unfold dst in S. eapply store_sibling; eauto.
    + rewrite (bind_run _ _ _ _ _ (process_file_skip c x s Hr)).
      apply IH; auto. intros y Hy. apply Hfree. now right.
Qed.

Lemma process_dir_runs c s :
  clean (fs s) ->
  subdir c <> "asset_manifest.json" ->
  (forall x, In x (names c (fs s)) -> is_file (src c x) (fs s) = true) ->
  lookup ["processed_assets"; subdir c] (fs s) = None ->
  exists s',
    process_dir self (subdir c) (kind c) (exts c) s = (s', inr tt)
    /\ clean (fs s')
    /\ forall a p, a <> subdir c ->
                   lookup ("processed_assets" :: a :: p) (fs s')
                   = lookup ("processed_assets" :: a :: p) (fs s).
Proof.
  intros Hcl Hc Hf Hfree. rewrite process_dir_unfold. unfold ask.
  unfold bind at 1.
  destruct (exists_ ["assets"; subdir c] (fs s)) eqn:Hp; cbn [negb].
  - destruct Hcl as (Q1 & Q2 & Q3 & Q4).
    destruct (mkdir_ok ["processed_assets"] (subdir c) (fs s) Q1 (Q2 _)) as (n1 & Hm).
    simpl app in Hm.
    destruct (clean_mkdir (fs s) n1 (subdir c)) as (Hcl1 & Hd1); auto.
    { split; [|split; [|split]]; auto. }
    assert (Hs : psteps (fs s) n1).
    { apply psteps_one. apply pstep_mkdir with (q := [subdir c]); auto. }
    unfold bind at 1, sys. rewrite Hm.
    unfold bind at 1. cbn [fs]. rewrite glob_star_src.
    destruct (loop_runs c (map fst (listdir ["assets"; subdir c] n1))
                (mkState n1 (stdout s) (manifest_assets s) (copy_calls s)))
      as (s' & H & Hcl' & Hfr); cbn [fs]; auto.
    + apply nodup_listdir.
    + fold (names c n1). rewrite (psteps_names _ _ c Hs).
      intros x Hx. unfold is_file, src.
      rewrite (psteps_frame _ _ [subdir c; x] Hs). now apply Hf.
    + intros x _. unfold dst.
      change ["processed_assets"; subdir c; x]
        with (["processed_assets"; subdir c] ++ [x]).
      rewrite lookup_app, (mkdir_new _ _ _ _ Hm Hfree). reflexivity.
    + exists s'. split; [exact H|]. split; [exact Hcl'|].
      intros a p Ha. rewrite (Hfr a p Ha). eapply mkdir_sibling; eauto.
  - exists s. auto.
Qed.

(** A run on a working directory that has [assets] and no
    [processed_assets] yet, and in which every entry with a listed suffix
    is a regular file, completes. *)
Lemma fresh_run_completes root :
  exists_ ["assets"] root = true ->
  exists_ ["processed_assets"] root = false ->
  sources_ok root ->
  exists s, run root = (s, inr 0).
Proof.
  intros Hp Ho Hsrc.
  rewrite run_unfold, process_all_assets_unfold. unfold ask.
  unfold bind at 1. unfold bind at 1. unfold print at 1.
  unfold bind at 1. cbn [fs start]. rewrite Hp. cbn [negb].
  destruct root as [d|es]; [discriminate|].
  assert (Hm : mkdir true ["processed_assets"] (Dir es)
               = inr (Dir (set "processed_assets" (Dir []) es))).
  { revert Ho. unfold exists_. simpl.
    destruct (assoc "processed_assets" es); [discriminate|reflexivity]. }
  set (n0 := Dir (set "processed_assets" (Dir []) es)) in *.
  assert (Hcl0 : clean n0).
  { unfold clean, is_dir, is_file, manifest_path, n0. simpl.
    rewrite assoc_set_same. auto. }
  assert (Hfree0 : forall a, lookup ["processed_assets"; a] n0 = None).
  { intros a. unfold n0. simpl. now rewrite assoc_set_same. }
  assert (P0 : psteps (Dir es) n0).
  { apply psteps_one. apply pstep_mkdir with (q := []); auto. }
  unfold bind at 1, sys. cbn [fs stdout manifest_assets copy_calls start]. rewrite Hm.
  set (s0 := mkState n0 _ _ _).
  pose proof (psteps_sources_ok _ _ P0 Hsrc) as Hsrc0.
  destruct (process_dir_runs textures s0) as (s1 & H1 & Hcl1 & Fr1); auto.
  { discriminate. } { intros x; apply Hsrc0; simpl; auto. }
  destruct (process_dir_ok _ _ _ _ H1) as (n1 & P1 & _ & _ & E1).
  assert (F1 : fs s1 = n1) by (rewrite E1; reflexivity). rewrite <- F1 in P1.
  pose proof (psteps_sources_ok _ _ P1 Hsrc0) as Hsrc1.
  destruct (process_dir_runs models s1) as (s2 & H2 & Hcl2 & Fr2); auto.
  { discriminate. } { intros x; apply Hsrc1; simpl; auto. }
  { rewrite Fr1 by discriminate. apply Hfree0. }
  destruct (process_dir_ok _ _ _ _ H2) as (n2 & P2 & _ & _ & E2).
  assert (F2 : fs s2 = n2) by (rewrite E2; reflexivity). rewrite <- F2 in P2.
  pose proof (psteps_sources_ok _ _ P2 Hsrc1) as Hsrc2.
  destruct (process_dir_runs sounds s2) as (s3 & H3 & Hcl3 & Fr3); auto.
  { discriminate. } { intros x; apply Hsrc2; simpl; auto. }
  { rewrite Fr2, Fr1 by discriminate. apply Hfree0. }
  destruct (process_dir_ok _ _ _ _ H3) as (n3 & P3 & _ & _ & E3).
  assert (F3 : fs s3 = n3) by (rewrite E3; reflexivity). rewrite <- F3 in P3.
  pose proof (psteps_sources_ok _ _ P3 Hsrc2) as Hsrc3.
  destruct (process_dir_runs shaders s3) as (s4 & H4 & Hcl4 & Fr4); auto.
  { discriminate. } { intros x; apply Hsrc3; simpl; auto 6. }
  { rewrite Fr3, Fr2, Fr1 by discriminate. apply Hfree0. }
  rewrite (bind_run _ _ _ _ _ H1), (bind_run _ _ _ _ _ H2),
    (bind_run _ _ _ _ _ H3), (bind_run _ _ _ _ _ H4).
  assert (Hfree4 : lookup manifest_path (fs s4) = None).
  { unfold manifest_path. rewrite Fr4, Fr3, Fr2, Fr1 by discriminate. apply Hfree0. }
  destruct Hcl4 as (Q1 & _ & _ & Q4).
  destruct (store_ok ["processed_assets"] "asset_manifest.json"
              (rw (manifest_text (manifest_assets s4))) (fs s4) Q1 Q4) as (n6 & S2).
  simpl app in S2.
  erewrite bind_run.
  2:{ apply (generate_manifest_run s4 n6); [|exact S2].
      unfold locked. now rewrite Hfree4. }
  unfold bind, print, ret. eauto.
Qed.

End Completion.

(** ** Effects of a computation, however it ends *)

Section Keeping.

Import FS Py AssetProcessor Run Effects.
Local Open Scope py_scope.

Variable R : node -> node -> Prop.
Hypothesis R_refl : forall n, R n n.
Hypothesis R_trans : forall a b c, R a b -> R b c -> R a c.

Lemma bind_inv {A B} (m : M A) (k : A -> M B) s s' r :
  bind m k s = (s', r) ->
  (exists e, m s = (s', inl e) /\ r = inl e)
  \/ (exists s1 a, m s = (s1, inr a) /\ k a s1 = (s', r)).
Proof.
  unfold bind. destruct (m s) as [s1 [e|a]].
  - intros [= <- <-]. left. eauto.
  - intros H. right. eauto.
Qed.

Lemma keeps_ret {A} (a : A) : keeps R (ret a).
Proof. intros s s' r [= <- _]. apply R_refl. Qed.

Lemma keeps_print line : keeps R (print line).
Proof. intros s s' r [= <- _]. apply R_refl. Qed.

Lemma keeps_ask {A} (f : node -> A) : keeps R (ask f).
Proof. intros s s' r [= <- _]. apply R_refl. Qed.

Lemma keeps_append_asset e : keeps R (append_asset e).
Proof. intros s s' r [= <- _]. apply R_refl. Qed.

Lemma keeps_bind {A B} (m : M A) (k : A -> M B) :
  keeps R m -> (forall a, keeps R (k a)) -> keeps R (bind m k).
Proof.
  intros Hm Hk s s' r H.
  apply bind_inv in H as [(e & H & _) | (s1 & a & H1 & H2)].
  - eapply Hm; eauto.
  - eapply R_trans; [eapply Hm | eapply Hk]; eauto.
Qed.

Lemma keeps_sys f :
  (forall n n', f n = inr n' -> R n n') -> keeps R (sys f).
Proof.
  intros Hf s s' r. unfold sys. destruct (f (fs s)) as [e|n'] eqn:E.
  - intros [= <- _]. apply R_refl.
  - intros [= <- _]. cbn [fs]. auto.
Qed.

Lemma keeps_open_w p :
  (forall n d n', store p d n = inr n' -> R n n') -> keeps R (open_w p).
Proof.
  intros Hs s s' r. unfold open_w. destruct (locked p (fs s)).
  - intros [= <- _]. apply R_refl.
  - apply keeps_sys. intros n n'. apply Hs.
Qed.

Lemma keeps_write_close p d :
  (forall n f n', store p f n = inr n' -> R n n') -> keeps R (write_close p d).
Proof.
  intros Hs. apply keeps_sys. intros n n'. unfold fill.
  destruct (read p n); [discriminate|]. apply Hs.
Qed.

Lemma keeps_copystat src p :
  (forall n d n', store p d n = inr n' -> R n n') -> keeps R (copystat src p).
Proof.
  intros Hs. apply keeps_sys. intros n n'. unfold copymode.
  destruct (read src n); [discriminate|]. destruct (read p n); [discriminate|].
  apply Hs.
Qed.

(** In [copy2] the destination is fixed when the call is entered. *)
Lemma keeps_copy2 src dst :
  (forall n0 n d n', store (copy2_target src dst n0) d n = inr n' -> R n n') ->
  keeps R (copy2 src dst).
Proof.
  intros Hs s s' r. unfold copy2.
  destruct (path_eqb src (copy2_target src dst (fs s)) && exists_ src (fs s)).
  { intros [= <- _]. apply R_refl. }
  destruct (read src (fs s)) as [e|d]; [intros [= <- _]; apply R_refl|].
  intros H.
  assert (K : keeps R (open_w (copy2_target src dst (fs s)) ;;
                       write_close (copy2_target src dst (fs s)) (data d) ;;
                       copystat src (copy2_target src dst (fs s)))).
  { apply keeps_bind; [apply keeps_open_w; apply Hs|]. intros _.
    apply keeps_bind; [apply keeps_write_close; apply Hs|]. intros _.
    apply keeps_copystat. apply Hs. }
  apply K in H. exact H.
Qed.

(** The steps of the pipeline before the manifest is written. *)
Hypothesis R_mkdir_output :
  forall n n', mkdir true ["processed_assets"] n = inr n' -> R n n'.
Hypothesis R_mkdir_category :
  forall c n n', In c categories ->
                 mkdir true ["processed_assets"; subdir c] n = inr n' -> R n n'.
Hypothesis R_copy :
  forall c x q d n n',
    In c categories -> recognized (exts c) x = true ->
    store ("processed_assets" :: subdir c :: x :: q) d n = inr n' -> R n n'.

Lemma keeps_process_file c x :
  In c categories ->
  keeps R (process_file (kind c) (exts c) ["processed_assets"; subdir c] (src c x)).
Proof.
  intros Hc. rewrite process_file_unfold.
  destruct (recognized (exts c) x) eqn:Hr; [|apply keeps_ret].
  apply keeps_bind; [apply keeps_print|]. intros _.
  apply keeps_bind; [|intros _; apply keeps_append_asset].
  apply keeps_copy2. intros n0 n d n'.
  destruct (target_cases c x n0) as [-> | ->]; unfold dst; now apply R_copy.
Qed.

Lemma keeps_loop c xs :
  In c categories ->
  keeps R (for_each (map (src c) xs)
             (process_file (kind c) (exts c) ["processed_assets"; subdir c])).
Proof.
  intros Hc. induction xs as [|x xs IH]; simpl.
  - apply keeps_ret.
  - apply keeps_bind; [now apply keeps_process_file | intros _; exact IH].
Qed.

Lemma keeps_process_dir c :
  In c categories -> keeps R (process_dir self (subdir c) (kind c) (exts c)).
Proof.
  intros Hc. rewrite process_dir_unfold.
  apply keeps_bind; [apply keeps_ask|]. intros present.
  destruct (negb present); [apply keeps_ret|].
  apply keeps_bind; [apply keeps_sys; intros n n'; now apply R_mkdir_category|].
  intros _ s s' r H.
  apply bind_inv in H as [(e & H & _) | (s1 & files & H1 & H2)];
    [discriminate H|].
  injection H1 as <- <-. rewrite glob_star_src in H2.
  eapply keeps_loop; eauto.
Qed.

(** Lines 28 to 34 of [process_all_assets]: everything a run does to the
    file system before [generate_manifest] is called. *)
Lemma keeps_copying : keeps R (copying self).
Proof.
  unfold copying.
  apply keeps_bind; [apply keeps_sys; exact R_mkdir_output|]. intros _.
  apply keeps_bind; [apply (keeps_process_dir textures); simpl; auto|]. intros _.
  apply keeps_bind; [apply (keeps_process_dir models); simpl; auto|]. intros _.
  apply keeps_bind; [apply (keeps_process_dir sounds); simpl; auto|]. intros _.
  apply (keeps_process_dir shaders); simpl; auto 6.
Qed.

(** With the manifest steps too, every run is covered. *)
Hypothesis R_manifest :
  forall d n n', store manifest_path d n = inr n' -> R n n'.

Lemma keeps_generate_manifest : keeps R (generate_manifest self).
Proof.
  rewrite generate_manifest_unfold.
  apply keeps_bind; [apply keeps_open_w; intros n d n'; apply R_manifest|]. intros _.
  apply keeps_bind; [intros s s' r [= <- _]; apply R_refl|]. intros assets.
  apply keeps_bind; [apply keeps_write_close; intros n d n'; apply R_manifest|].
  intros _. apply keeps_print.
Qed.

Lemma run_keeps root s r : run root = (s, r) -> R root (fs s).
Proof.
  rewrite run_unfold, process_all_assets_unfold. unfold ask.
  change root with (fs (start root)) at 2. generalize (start root).
  intros s0. revert s0 s r.
  apply keeps_bind; [|intros success; apply keeps_ret].
  apply keeps_bind; [apply keeps_print|]. intros _.
  apply keeps_bind; [apply keeps_ask|]. intros present.
  destruct (negb present).
  { apply keeps_bind; [apply keeps_print | intros _; apply keeps_ret]. }
  apply keeps_bind; [apply keeps_sys; exact R_mkdir_output|]. intros _.
  apply keeps_bind; [apply keeps_process_dir; simpl; auto|]. intros _.
  apply keeps_bind; [apply keeps_process_dir; simpl; auto|]. intros _.
  apply keeps_bind; [apply keeps_process_dir; simpl; auto|]. intros _.
  apply keeps_bind; [apply keeps_process_dir; simpl; auto 6|]. intros _.
  apply keeps_bind; [apply keeps_generate_manifest|]. intros _.
  apply keeps_bind; [apply keeps_print | intros _; apply keeps_ret].
Qed.

End Keeping.

(** * The claims *)

Section Claims.

Import FS Json Py AssetProcessor Run.

Lemma final_fields s :
  s = final (fs s) ->
  stdout s
  = ["Starting asset processing..."] ++ lines (fs s)
    ++ ["Generated manifest: processed_assets/asset_manifest.json";
        "Asset processing complete!"]
  /\ manifest_assets s = entries (fs s)
  /\ copy_calls s = calls (fs s).
Proof.
  intros H. repeat split.
  - exact (f_equal stdout H).
  - exact (f_equal manifest_assets H).
  - exact (f_equal copy_calls H).
Qed.


Lemma psteps_entries n n' : psteps n n' -> entries n' = entries n.
Proof.
  intros H. unfold entries, categories. cbn [flat_map].
  now rewrite !(psteps_names _ _ _ H).
Qed.


(** Where a completed run has put a file it selected. *)
Lemma copied_at_target root s c x d :
  run root = (s, inr 0) ->
  In c categories ->
  recognized (exts c) x = true ->
  lookup (src c x) root = Some (File d) ->
  lookup (copy2_target (src c x) (dst c x) root) (fs s) = Some (File d)
  /\ lookup (src c x) (fs s) = Some (File d).
Proof.
  intros H Hc Hr Hsrc.
  apply run_completed in H as (_ & Hss & (_ & _ & Hcop & _) & _).
  assert (Hx : In x (names c (fs s))).
  { rewrite (psteps_names _ _ c Hss). apply in_names. eauto. }
  destruct (Hcop c x Hc Hx) as (d' & Hs' & Ht').
  assert (Hfr : lookup (src c x) (fs s) = lookup (src c x) root)
    by (apply psteps_frame; exact Hss).
  rewrite Hfr, Hsrc in Hs'. injection Hs' as <-.
  split; [|now rewrite Hfr].
  unfold copy2_target in *.
  now rewrite (psteps_is_dir3 _ _ (dst c x) Hss eq_refl) in Ht'.
Qed.

Lemma copied_at_dst root s c x d :
  run root = (s, inr 0) ->
  In c categories ->
  recognized (exts c) x = true ->
  lookup (src c x) root = Some (File d) ->
  is_dir (dst c x) root = false ->
  lookup (dst c x) (fs s) = Some (File d)
  /\ lookup (src c x) (fs s) = Some (File d).
Proof.
  intros H Hc Hr Hsrc Hdir.
  destruct (copied_at_target root s c x d H Hc Hr Hsrc) as (Ht & Hs).
  split; [|exact Hs]. unfold copy2_target in Ht. now rewrite Hdir in Ht.
Qed.

Lemma fresh_not_dir root p :
  exists_ ["processed_assets"] root = false ->
  is_dir ("processed_assets" :: p) root = false.
Proof.
  unfold exists_, is_dir. simpl. destruct root as [b|es]; [reflexivity|].
  destruct (assoc "processed_assets" es); [discriminate|reflexivity].
Qed.

(** C1 (amended): [compile_shader] always returns [True] and changes
    nothing but standard output, so it produces no compiled file; hence
    every run of the shader-compiler script whose input directory exists
    and whose output directory exists or can be created reports every
    shader file it found, writes no file, and returns 0, whatever the
    shader files contain. *)
Theorem compile_shaders_reports_success :
  (forall input_file output_file shader_type s,
      CompileShaders.compile_shader input_file output_file shader_type s
      = (mkState (fs s)
           (stdout s
            ++ [("Compiling " ++ str input_file ++ " -> " ++ str output_file)%string])
           (manifest_assets s) (copy_calls s),
         inr true))
  /\ (forall root input_dir output_dir n1,
         exists_ input_dir root = true ->
         mkdir_parents output_dir root = inr n1 ->
         CompileShaders.run input_dir output_dir root
         = (CompileShaders.compiled input_dir output_dir n1, inr 0)).
Proof.
  split.
  - intros. apply compile_shader_true.
  - intros. now apply run_compiles.
Qed.

Lemma compile_shaders_reports_success_witness :
  exit_status (CompileShaders.run ["shaders"] ["build"] Sample.shaders) = 0
  /\ stdout (fst (CompileShaders.run ["shaders"] ["build"] Sample.shaders))
     = ["Compiling shaders/basic.hlsl -> build/basic.spv";
        "Compiling shaders/post/blur.glsl -> build/post/blur.spv";
        "Successfully compiled 2 shaders"].
Proof.
  rewrite (proj2 compile_shaders_reports_success
             Sample.shaders ["shaders"] ["build"] _ eq_refl eq_refl).
  split; reflexivity.
Defined.

(** C1, counterexample: the input directory exists, the output path is a
    regular file; [mkdir] raises and the script ends with status 1
    before it looked for a shader. *)
Lemma compile_shaders_output_blocked :
  is_dir ["shaders"] Sample.shaders = true
  /\ CompileShaders.run ["shaders"] ["out"] Sample.shaders
     = (start Sample.shaders, inl FileExistsError)
  /\ exit_status (CompileShaders.run ["shaders"] ["out"] Sample.shaders) = 1.
Proof. repeat split. Qed.

(** C2 (amended): in a working directory whose [assets] directory holds
    [textures/a.png] and [shaders/b.frag] and nothing else, listed in
    either order, and which has no [processed_assets] (so no earlier
    manifest), one run ends with status 0, has copied both files under
    their own names to [processed_assets/textures/a.png] and
    [processed_assets/shaders/b.frag], has made no
    [processed_assets/shaders/b.spv], and has written a manifest whose
    ["assets"] list has exactly these two entries. *)
Theorem build_scenario es aes png frag :
  assoc "assets" es = Some (Dir aes) ->
  aes = [("textures", Dir [("a.png", File png)]);
         ("shaders", Dir [("b.frag", File frag)])]
  \/ aes = [("shaders", Dir [("b.frag", File frag)]);
            ("textures", Dir [("a.png", File png)])] ->
  assoc "processed_assets" es = None ->
  exists s,
    run (Dir es) = (s, inr 0)
    /\ exit_status (run (Dir es)) = 0
    /\ lookup ["processed_assets"; "textures"; "a.png"] (fs s) = Some (File png)
    /\ lookup ["processed_assets"; "shaders"; "b.frag"] (fs s) = Some (File frag)
    /\ lookup ["processed_assets"; "shaders"; "b.spv"] (fs s) = None
    /\ manifest_assets s
       = [entry "texture" ["assets"; "textures"; "a.png"]
                ["processed_assets"; "textures"; "a.png"];
          entry "shader" ["assets"; "shaders"; "b.frag"]
                ["processed_assets"; "shaders"; "b.frag"]]
    /\ lookup manifest_path (fs s)
       = Some (File (rw (manifest_text (manifest_assets s)))).
Proof.
  intros Ha Haes Ho.
  assert (Hp : exists_ ["assets"] (Dir es) = true)
    by (unfold exists_; simpl; now rewrite Ha).
  assert (Hfresh : exists_ ["processed_assets"] (Dir es) = false)
    by (unfold exists_; simpl; now rewrite Ho).
  assert (Hn : forall c, In c categories ->
                 names c (Dir es)
                 = if String.eqb (subdir c) "textures" then ["a.png"]
                   else if String.eqb (subdir c) "shaders" then ["b.frag"]
                   else []).
  { intros c Hc. unfold names, listdir. simpl. rewrite Ha.
    apply in_categories in Hc as [-> | [-> | [-> | ->]]];
      destruct Haes as [-> | ->]; reflexivity. }
  assert (Hpng : lookup (src textures "a.png") (Dir es) = Some (File png))
    by (unfold src; simpl; rewrite Ha; destruct Haes as [-> | ->]; reflexivity).
  assert (Hfrag : lookup (src shaders "b.frag") (Dir es) = Some (File frag))
    by (unfold src; simpl; rewrite Ha; destruct Haes as [-> | ->]; reflexivity).
  assert (Hok : sources_ok (Dir es)).
  { intros c x Hc Hx. rewrite (Hn c Hc) in Hx. unfold is_file.
    apply in_categories in Hc as [-> | [-> | [-> | ->]]]; simpl in Hx;
      try tauto; destruct Hx as [<-|[]]; [now rewrite Hpng | now rewrite Hfrag]. }
  destruct (fresh_run_completes _ Hp Hfresh Hok) as (s & H).
  exists s. split; [exact H|]. split; [now rewrite H|].
  split; [|split; [|split]].
  - apply (copied_at_dst (Dir es) s textures "a.png" png); simpl; auto.
    now apply fresh_not_dir.
  - apply (copied_at_dst (Dir es) s shaders "b.frag" frag); simpl; auto 6.
    now apply fresh_not_dir.
  - assert (K : lookup ["processed_assets"; "shaders"; "b.spv"] (fs s)
                = lookup ["processed_assets"; "shaders"; "b.spv"] (Dir es)).
    { revert H.
      apply (run_keeps
               (fun n n' => lookup ["processed_assets"; "shaders"; "b.spv"] n'
                            = lookup ["processed_assets"; "shaders"; "b.spv"] n)).
      - reflexivity.
      - intros a b c E1 E2. congruence.
      - intros n n' E. apply (mkdir_under ["processed_assets"] _ _ _ _ E).
      - intros c n n' Hc E.
        destruct (string_dec "shaders" (subdir c)) as [Es|Ns].
        + rewrite <- Es in E.
          apply (mkdir_under ["processed_assets"; "shaders"] _ _ _ _ E).
        + apply (mkdir_diverge ["processed_assets"] _ [] _ ["b.spv"] _ _ E Ns).
      - intros c x q d n n' Hc Hr E.
        destruct (string_dec "shaders" (subdir c)) as [Es|Ns].
        + assert (c = shaders) as -> by (apply subdir_inj; simpl; auto 6).
          apply (store_diverge ["processed_assets"; "shaders"] _ _ _ [] _ _ _ E).
          intros <-. discriminate Hr.
        + apply (store_diverge ["processed_assets"] _ _ _ ["b.spv"] _ _ _ E Ns).
      - intros d n n' E. unfold manifest_path in E.
        apply (store_diverge ["processed_assets"] _ [] _ ["b.spv"] _ _ _ E).
        discriminate. }
    rewrite K. simpl. now rewrite Ho.
  - apply run_completed in H as (_ & Hss & (_ & _ & _ & Hfile) & Hfin).
    destruct (final_fields _ Hfin) as (_ & Hm & _).
    split.
    + rewrite Hm, (psteps_entries _ _ Hss). unfold entries, categories.
      cbn [flat_map]. rewrite !Hn by (simpl; auto 6). reflexivity.
    + rewrite Hm. exact Hfile.
Qed.

Lemma build_scenario_witness :
  exists s,
    run Sample.two_assets = (s, inr 0)
    /\ exit_status (run Sample.two_assets) = 0
    /\ lookup ["processed_assets"; "textures"; "a.png"] (fs s)
       = Some (File (rw (Sample.bytes "PNG")))
    /\ lookup ["processed_assets"; "shaders"; "b.frag"] (fs s)
       = Some (File (rw (Sample.bytes "void main() {}")))
    /\ lookup ["processed_assets"; "shaders"; "b.spv"] (fs s) = None
    /\ manifest_assets s
       = [entry "texture" ["assets"; "textures"; "a.png"]
                ["processed_assets"; "textures"; "a.png"];
          entry "shader" ["assets"; "shaders"; "b.frag"]
                ["processed_assets"; "shaders"; "b.frag"]]
    /\ lookup manifest_path (fs s)
       = Some (File (rw (manifest_text (manifest_assets s)))).
Proof.
  apply (build_scenario
           [("assets",
             Dir [("textures", Dir [("a.png", File (rw (Sample.bytes "PNG")))]);
                  ("shaders",
                   Dir [("b.frag", File (rw (Sample.bytes "void main() {}")))])])]
           [("textures", Dir [("a.png", File (rw (Sample.bytes "PNG")))]);
            ("shaders", Dir [("b.frag", File (rw (Sample.bytes "void main() {}")))])]
           (rw (Sample.bytes "PNG")) (rw (Sample.bytes "void main() {}"))
           eq_refl (or_introl eq_refl) eq_refl).
Defined.

(** C2, counterexample: after the run there is no
    [processed_assets/shaders/b.spv]; the shader is copied as [b.frag].
    The shader-compiler script, run on [assets/shaders], does not find
    [b.frag] and writes no file either. *)
Lemma build_scenario_no_spv :
  lookup ["processed_assets"; "shaders"; "b.spv"]
         (fs (fst (run Sample.two_assets))) = None
  /\ is_file ["processed_assets"; "shaders"; "b.frag"]
             (fs (fst (run Sample.two_assets))) = true
  /\ stdout (fst (CompileShaders.run ["assets"; "shaders"]
                    ["processed_assets"; "shaders"] Sample.two_assets))
     = ["Successfully compiled 0 shaders"]
  /\ lookup ["processed_assets"; "shaders"; "b.spv"]
            (fs (fst (CompileShaders.run ["assets"; "shaders"]
                        ["processed_assets"; "shaders"] Sample.two_assets)))
     = None.
Proof. vm_compute. repeat split. Qed.

(** C3 (amended): the exit status of the asset pipeline is 0 exactly when
    the assets directory exists and no call raised, and 1 otherwise: an
    assets directory that does not exist gives 1, and so does an
    exception that ends the run.  The shader-compiler script, from its
    parsed arguments on, behaves the same for its input directory.
    Neither script answers a directory that does not exist with 2, and
    neither looks for duplicate IDs.  (What [argparse] does with an
    unusable command line happens before [main]'s first own statement
    and is not part of the embedding.) *)
Theorem exit_status_by_outcome root :
  (let r := run root in
   (exit_status r = 0 \/ exit_status r = 1)
   /\ (exit_status r = 0 <->
       exists_ ["assets"] root = true /\ exists code, snd r = inr code)
   /\ (exists_ ["assets"] root = false -> snd r = inr 1))
  /\ (forall input_dir output_dir,
         let r := CompileShaders.run input_dir output_dir root in
         (exit_status r = 0 \/ exit_status r = 1)
         /\ (exit_status r = 0 <->
             exists_ input_dir root = true /\ exists code, snd r = inr code)
         /\ (exists_ input_dir root = false -> snd r = inr 1)).
Proof.
  split.
  - cbv zeta. destruct (exists_ ["assets"] root) eqn:Hp.
    + destruct (run root) as [s [e|code]] eqn:E; unfold exit_status; simpl.
      * split; [now right|]. split; [|discriminate].
        split; [discriminate | intros (_ & code & H); discriminate].
      * apply run_ok in E as [(_ & -> & _) | (Hq & _)]; [|congruence].
        split; [now left|]. split; [|discriminate]. split; eauto.
    + rewrite (run_missing_assets _ Hp). unfold exit_status. simpl.
      split; [now right|]. split; [|reflexivity].
      split; [discriminate | intros (H & _); discriminate].
  - intros input_dir output_dir. cbv zeta.
    destruct (exists_ input_dir root) eqn:Hp.
    + destruct (mkdir_parents output_dir root) as [e|n1] eqn:Hm.
      * rewrite (run_raises _ _ _ _ Hp Hm). unfold exit_status. simpl.
        split; [now right|]. split; [|discriminate].
        split; [discriminate | intros (_ & code & H); discriminate].
      * rewrite (run_compiles _ _ _ _ Hp Hm). unfold exit_status. simpl.
        split; [now left|]. split; [|discriminate]. split; eauto.
    + rewrite (run_missing _ _ _ Hp). unfold exit_status. simpl.
      split; [now right|]. split; [|reflexivity].
      split; [discriminate | intros (H & _); discriminate].
Qed.

(** C3, counterexample: without an assets (or input) directory both
    scripts end with status 1, not 2. *)
Lemma missing_directory_exits_one :
  exists_ ["assets"] Sample.empty = false
  /\ exit_status (run Sample.empty) = 1
  /\ exists_ ["shaders"] Sample.empty = false
  /\ exit_status (CompileShaders.run ["shaders"] ["build"] Sample.empty) = 1.
Proof. repeat split. Qed.

(** C4 (amended): when a run of the pipeline completes (with either
    status) and every file it selected may be written, a second run on
    the file system it left, with no source changed, does the same work
    again: it calls [shutil.copy2] for the same files, prints the same
    lines, builds the same manifest and leaves the file system as it
    found it.  Nothing is skipped as up to date.  When a file it
    selected may not be written, its copy may not either
    ([shutil.copy2] carries the permission bits over), and the second
    run ends with [PermissionError] at a copy it is to overwrite,
    leaving the file system as it found it. *)
Theorem second_run_repeats root s code :
  run root = (s, inr code) ->
  ((forall c x d, In c categories -> In x (names c root) ->
                  lookup (src c x) root = Some (File d) -> writable d = true) ->
   run (fs s) = (s, inr code))
  /\ (forall c x d, In c categories -> In x (names c root) ->
                    lookup (src c x) root = Some (File d) -> writable d = false ->
                    exists s2, run (fs s) = (s2, inl PermissionError)
                               /\ fs s2 = fs s).
Proof.
  intros H.
  destruct (run_ok _ _ _ H) as [(Hp & -> & Hss & Hset & Hfin) | (Hp & -> & ->)].
  - split.
    + intros Hw. rewrite Hfin at 2. apply run_done; [exact Hset| |].
      * intros c x d Hc Hx Hl. rewrite (psteps_names _ _ c Hss) in Hx.
        unfold src in Hl. rewrite (psteps_frame _ _ _ Hss) in Hl. eapply Hw; eauto.
      * now rewrite (psteps_exists _ _ [] Hss).
    + intros c x d Hc Hx Hl Hw.
      apply (run_refused (fs s) c x d); auto.
      * now rewrite (psteps_exists _ _ [] Hss).
      * now rewrite (psteps_names _ _ c Hss).
      * unfold src. now rewrite (psteps_frame _ _ _ Hss).
  - split; [intros _; exact H|].
    intros c x d _ Hx. rewrite (names_no_assets _ _ Hp) in Hx. destruct Hx.
Qed.

Lemma second_run_repeats_witness :
  run (fs (fst (run Sample.two_assets))) = (fst (run Sample.two_assets), inr 0)
  /\ exists s2, run (fs (fst (run Sample.read_only))) = (s2, inl PermissionError)
                /\ fs s2 = fs (fst (run Sample.read_only)).
Proof.
  split.
  - apply (proj1 (second_run_repeats Sample.two_assets
                    (fst (run Sample.two_assets)) 0 ltac:(vm_compute; reflexivity))).
    intros c x d Hc Hx.
    apply in_categories in Hc as [-> | [-> | [-> | ->]]]; vm_compute in Hx;
      repeat (destruct Hx as [<- | Hx]; [intros [= <-]; reflexivity|]); destruct Hx.
  - apply (proj2 (second_run_repeats Sample.read_only
                    (fst (run Sample.read_only)) 0 ltac:(vm_compute; reflexivity))
             textures "a.png" (ro (Sample.bytes "PNG"))).
    + simpl. auto.
    + vm_compute. auto.
    + reflexivity.
    + reflexivity.
Defined.

(** C4, counterexample: the second of two runs over unchanged sources
    copies both assets again.  And where an asset may not be written
    (mode [0444]), its copy may not either: the second run is refused the
    copy it is to overwrite and ends with [PermissionError], having
    skipped nothing. *)
Lemma second_run_copies_again :
  snd (run Sample.two_assets) = inr 0
  /\ copy_calls (fst (run (fs (fst (run Sample.two_assets)))))
     = [(["assets"; "textures"; "a.png"], ["processed_assets"; "textures"; "a.png"]);
        (["assets"; "shaders"; "b.frag"], ["processed_assets"; "shaders"; "b.frag"])]
  /\ length (copy_calls (fst (run (fs (fst (run Sample.two_assets)))))) <> 0
  /\ snd (run Sample.read_only) = inr 0
  /\ lookup ["processed_assets"; "textures"; "a.png"]
            (fs (fst (run Sample.read_only)))
     = Some (File (ro (Sample.bytes "PNG")))
  /\ snd (run (fs (fst (run Sample.read_only)))) = inl PermissionError
  /\ copy_calls (fst (run (fs (fst (run Sample.read_only)))))
     = [(["assets"; "textures"; "a.png"], ["processed_assets"; "textures"; "a.png"])].
Proof. vm_compute. repeat split. discriminate. Qed.

(** C5 (amended): [generate_manifest] writes the manifest in place.  Its
    first statement opens the destination for writing, which leaves an
    empty file there whatever it held; its second fills that file.  No
    other file is written and nothing is renamed: each of the two file
    systems it passes through is the one before with the destination
    replaced.  When the save completes the destination holds the
    complete new manifest. *)
Theorem generate_manifest_in_place self0 s s' :
  generate_manifest self0 s = (s', inr tt) ->
  exists s1 s2,
    trail (generate_manifest_steps self0) s = [s1; s2; s']
    /\ store (manifest_file self0) (rw []) (fs s) = inr (fs s1)
    /\ lookup (manifest_file self0) (fs s1) = Some (File (rw []))
    /\ store (manifest_file self0) (rw (manifest_text (manifest_assets s))) (fs s1)
       = inr (fs s2)
    /\ fs s' = fs s2
    /\ lookup (manifest_file self0) (fs s')
       = Some (File (rw (manifest_text (manifest_assets s)))).
Proof.
  unfold generate_manifest, generate_manifest_steps. cbn [block trail]. intros H.
  apply bind_ok in H as (s1 & [] & H1 & H).
  apply bind_ok in H as (s2 & [] & H2 & H3).
  rewrite H1, H2, H3. exists s1, s2. split; [reflexivity|].
  apply open_w_ok in H1 as (_ & n1 & S1 & ->).
  apply bind_ok in H2 as (s1' & assets & G & H2). injection G as <- <-.
  unfold write_close in H2. apply sys_ok in H2 as (n2 & S2 & ->).
  unfold print in H3. injection H3 as <-.
  cbn [fs stdout manifest_assets copy_calls] in *.
  pose proof S1 as S1'. unfold rw in S1'.
  rewrite (fill_after _ _ _ _ _ _ S1'), <- (store_store _ _ _ _ _ S1) in S2.
  split; [exact S1|]. split; [eapply store_lookup; eauto|].
  split; [exact S2|]. split; [reflexivity|]. eapply store_lookup; eauto.
Qed.

Lemma generate_manifest_in_place_witness :
  exists s1 s2,
    trail (generate_manifest_steps self) (fst (run Sample.two_assets))
    = [s1; s2; fst (generate_manifest self (fst (run Sample.two_assets)))]
    /\ store (manifest_file self) (rw []) (fs (fst (run Sample.two_assets)))
       = inr (fs s1)
    /\ lookup (manifest_file self) (fs s1) = Some (File (rw []))
    /\ store (manifest_file self)
             (rw (manifest_text (manifest_assets (fst (run Sample.two_assets)))))
             (fs s1)
       = inr (fs s2)
    /\ fs (fst (generate_manifest self (fst (run Sample.two_assets)))) = fs s2
    /\ lookup (manifest_file self)
              (fs (fst (generate_manifest self (fst (run Sample.two_assets)))))
       = Some (File (rw (manifest_text
                           (manifest_assets (fst (run Sample.two_assets)))))).
Proof.
  apply (generate_manifest_in_place self (fst (run Sample.two_assets))
           (fst (generate_manifest self (fst (run Sample.two_assets))))).
  vm_compute. reflexivity.
Defined.

(** C5, counterexample: the manifest is saved over the complete manifest
    of an earlier run.  Of the three states the save passes through, the
    first has an empty file at the destination, which is neither the
    previous manifest nor the new one. *)
Lemma manifest_empty_mid_save :
  lookup manifest_path (fs (fst (run Sample.two_assets)))
  = Some (File (rw (manifest_text (entries Sample.two_assets))))
  /\ map (fun s => lookup manifest_path (fs s))
         (trail (generate_manifest_steps self) (fst (run Sample.two_assets)))
     = [Some (File (rw []));
        Some (File (rw (manifest_text (entries Sample.two_assets))));
        Some (File (rw (manifest_text (entries Sample.two_assets))))]
  /\ [] <> manifest_text (entries Sample.two_assets)
  /\ snd (generate_manifest self (fst (run Sample.two_assets))) = inr tt.
Proof. vm_compute. repeat split; discriminate. Qed.

(** C6 (amended): the manifest file a completed run leaves is the
    serialization of an object with the single key ["assets"], whose
    value is a list with one record per copied file, in the order of
    copying; a record has exactly the keys ["type"], ["source"] and
    ["output"].  There is no asset ID, hash, version, status or
    timestamp in it. *)
Theorem manifest_is_asset_list root s :
  run root = (s, inr 0) ->
  lookup manifest_path (fs s)
  = Some (File (rw (list_byte_of_string
                      (dumps (JObj [("assets", JArr (manifest_assets s))])))))
  /\ manifest_assets s = entries root
  /\ length (manifest_assets s) = length (copy_calls s)
  /\ Forall (fun e => exists c x,
                 In c categories
                 /\ e = JObj [("type", JStr (kind c));
                              ("source", JStr (str (src c x)));
                              ("output", JStr (str (dst c x)))])
            (manifest_assets s).
Proof.
  intros H. apply run_completed in H as (_ & Hss & Hset & Hfin).
  destruct (final_fields _ Hfin) as (_ & Hm & Hc).
  destruct Hset as (_ & _ & _ & Hfile).
  split; [|split; [|split]].
  - rewrite Hm. exact Hfile.
  - rewrite Hm. now apply psteps_entries.
  - rewrite Hm, Hc. unfold entries, calls, categories. cbn [flat_map].
    now rewrite !length_app, !length_map.
  - rewrite Hm. apply Forall_forall. intros e He.
    unfold entries in He. apply in_flat_map in He as (c & Hc' & He).
    apply in_map_iff in He as (x & <- & _). exists c, x. split; [exact Hc'|].
    reflexivity.
Qed.

Lemma manifest_is_asset_list_witness :
  manifest_assets (fst (run Sample.two_assets)) = entries Sample.two_assets.
Proof.
  apply (manifest_is_asset_list Sample.two_assets (fst (run Sample.two_assets))).
  vm_compute. reflexivity.
Defined.

(** C6, counterexample: the manifest written for the two-asset tree is
    [{"assets": [..]}]; the value under its only key is a list, so the
    object is not a mapping from asset IDs to records of the seven
    fields. *)
Lemma manifest_not_keyed_by_id :
  lookup manifest_path (fs (fst (run Sample.two_assets)))
  = Some (File (rw (manifest_text (manifest_assets (fst (run Sample.two_assets))))))
  /\ manifest_json (manifest_assets (fst (run Sample.two_assets)))
     = JObj [("assets",
              JArr [JObj [("type", JStr "texture");
                          ("source", JStr "assets/textures/a.png");
                          ("output", JStr "processed_assets/textures/a.png")];
                    JObj [("type", JStr "shader");
                          ("source", JStr "assets/shaders/b.frag");
                          ("output", JStr "processed_assets/shaders/b.frag")]])]
  /\ Spec.manifest_shape (manifest_json (manifest_assets (fst (run Sample.two_assets))))
     = false.
Proof. vm_compute. repeat split. Qed.







End Claims.

(** * Further properties *)

(** ** What a run leaves in place *)

Section Untouched.

Import FS Py AssetProcessor Run Effects.

Lemma outside_same_refl n : outside_same n n.
Proof. intros x p _. reflexivity. Qed.

Lemma outside_same_trans a b c :
  outside_same a b -> outside_same b c -> outside_same a c.
Proof. intros H1 H2 x p Hx. now rewrite (H2 x p Hx), (H1 x p Hx). Qed.

Lemma kinds_kept_refl n : kinds_kept n n.
Proof. intros p. auto. Qed.

Lemma kinds_kept_trans a b c : kinds_kept a b -> kinds_kept b c -> kinds_kept a c.
Proof.
  intros H1 H2 p. destruct (H1 p) as (F1 & D1). destruct (H2 p) as (F2 & D2). auto.
Qed.

Lemma kinds_kept_mkdir b q n n' : mkdir b q n = inr n' -> kinds_kept n n'.
Proof.
  intros H p. split.
  - now rewrite (mkdir_is_file _ _ _ _ p H).
  - eapply mkdir_keeps_dir; eauto.
Qed.

Lemma kinds_kept_store q d n n' : store q d n = inr n' -> kinds_kept n n'.
Proof.
  intros H p. split.
  - destruct (list_eq_dec string_dec p q) as [->|Hne].
    + intros _. unfold is_file. now rewrite (store_lookup _ _ _ _ H).
    + now rewrite (store_is_file _ _ _ _ p H Hne).
  - now rewrite (store_is_dir _ _ _ _ p H).
Qed.

Lemma category_not_manifest c :
  In c categories -> "asset_manifest.json" <> subdir c.
Proof.
  intros Hc. apply in_categories in Hc as [-> | [-> | [-> | ->]]]; discriminate.
Qed.

(** X1: in a working directory of regular files and directories (no
    symbolic link, no file with a second hard link), whatever way a run
    of the asset pipeline ends, with status 0, with status 1 or with an
    exception, nothing outside [processed_assets] has changed: the
    source files and every other entry of the working directory are as
    they were. *)
Theorem pipeline_writes_only_output root s r x p :
  run root = (s, r) ->
  x <> "processed_assets" ->
  lookup (x :: p) (fs s) = lookup (x :: p) root.
Proof.
  intros H. revert x p. change (outside_same root (fs s)).
  revert H. apply run_keeps.
  - apply outside_same_refl.
  - apply outside_same_trans.
  - intros n n' H x p Hx. eapply mkdir_frame; eauto.
  - intros c n n' _ H x p Hx. eapply mkdir_frame; eauto.
  - intros c y q d n n' _ _ H x p Hx. eapply store_frame; eauto.
  - intros d n n' H x p Hx. eapply store_frame; eauto.
Qed.

Lemma pipeline_writes_only_output_witness :
  lookup ["assets"; "textures"; "pack.png"; "b.png"]
         (fs (fst (run Cases.interrupted)))
  = lookup ["assets"; "textures"; "pack.png"; "b.png"] Cases.interrupted.
Proof.
  apply (pipeline_writes_only_output Cases.interrupted
           (fst (run Cases.interrupted)) (snd (run Cases.interrupted))).
  - vm_compute. reflexivity.
  - discriminate.
Defined.

(** X2: a run of the asset pipeline, however it ends, removes nothing:
    every path that was a regular file is a regular file afterwards and
    every path that was a directory is a directory. *)
Theorem pipeline_removes_nothing root s r p :
  run root = (s, r) ->
  (is_file p root = true -> is_file p (fs s) = true)
  /\ (is_dir p root = true -> is_dir p (fs s) = true).
Proof.
  intros H. revert p. change (kinds_kept root (fs s)).
  revert H. apply run_keeps.
  - apply kinds_kept_refl.
  - apply kinds_kept_trans.
  - intros n n'. apply kinds_kept_mkdir.
  - intros c n n' _. apply kinds_kept_mkdir.
  - intros c y q d n n' _ _. apply kinds_kept_store.
  - intros d n n'. apply kinds_kept_store.
Qed.

Lemma pipeline_removes_nothing_witness :
  is_file ["processed_assets"; "notes.txt"] (fs (fst (run Cases.interrupted))) = true
  /\ is_dir ["assets"; "textures"; "pack.png"] (fs (fst (run Cases.interrupted)))
     = true.
Proof.
  split.
  - apply (pipeline_removes_nothing Cases.interrupted
             (fst (run Cases.interrupted)) (snd (run Cases.interrupted))
             ["processed_assets"; "notes.txt"]).
    + vm_compute. reflexivity.
    + vm_compute. reflexivity.
  - apply (pipeline_removes_nothing Cases.interrupted
             (fst (run Cases.interrupted)) (snd (run Cases.interrupted))
             ["assets"; "textures"; "pack.png"]).
    + vm_compute. reflexivity.
    + vm_compute. reflexivity.
Defined.

(** X3: the manifest is touched by [generate_manifest] only.
    [process_all_assets] is its first line, the test for the assets
    directory, lines 28 to 34 (the output directory is made, the four
    methods run), [generate_manifest] and the last line, in this order.
    In a working directory of regular files and directories (no
    symbolic link, no file with a second hard link), whatever lines 28
    to 34 do and however they end, with or without an exception,
    [processed_assets/asset_manifest.json] is then what it was before
    them: a run that stops there leaves the manifest of an earlier run
    whole, and makes none. *)
Theorem manifest_untouched_before_save :
  (forall s,
      process_all_assets self s
      = (print "Starting asset processing..." ;;
         present <- ask (exists_ ["assets"]) ;;
         if negb present then
           print "Assets directory 'assets' not found!" ;; ret false
         else
           copying self ;;
           generate_manifest self ;;
           print "Asset processing complete!" ;;
           ret true)%py s)
  /\ (forall s s' r,
         copying self s = (s', r) ->
         lookup manifest_path (fs s') = lookup manifest_path (fs s)).
Proof.
  split.
  - intros s. unfold process_all_assets, copying.
    apply bind_ext. intros _ s0. apply bind_ext. intros present s1.
    destruct (negb present); [reflexivity|].
    rewrite bind_assoc. apply bind_ext. intros _ s2.
    rewrite bind_assoc. apply bind_ext. intros _ s3.
    rewrite bind_assoc. apply bind_ext. intros _ s4.
    rewrite bind_assoc. reflexivity.
  - intros s s' r H.
    change (manifest_same (fs s) (fs s')). revert H. apply keeps_copying.
    + intros n. reflexivity.
    + intros a b c E1 E2. unfold manifest_same in *. congruence.
    + intros n n' H. apply (mkdir_under ["processed_assets"] _ _ _ _ H).
    + intros c n n' Hc H. unfold manifest_same, manifest_path.
      apply (mkdir_diverge ["processed_assets"] _ [] _ [] _ _ H).
      now apply category_not_manifest.
    + intros c x q d n n' Hc _ H. unfold manifest_same, manifest_path.
      apply (store_diverge ["processed_assets"] _ _ _ [] _ _ _ H).
      now apply category_not_manifest.
Qed.

(** The run of [Cases.interrupted] stops in line 31, at the directory
    [pack.png], after [a.png] was copied; the manifest is the old
    one. *)
Lemma manifest_untouched_before_save_witness :
  snd (run Cases.interrupted) = inl IsADirectoryError
  /\ lookup manifest_path (fs (fst (copying self (start Cases.interrupted))))
     = lookup manifest_path Cases.interrupted.
Proof.
  split; [vm_compute; reflexivity|].
  apply (proj2 manifest_untouched_before_save (start Cases.interrupted)
           (fst (copying self (start Cases.interrupted)))
           (snd (copying self (start Cases.interrupted)))).
  vm_compute. reflexivity.
Defined.

End Untouched.

(** ** File names and extensions *)

Section Names.

Import FS Run.

Lemma lower_length s : String.length (PyStr.lower s) = String.length s.
Proof. induction s as [|c s IH]; simpl; congruence. Qed.

Lemma lower_char_dot c : Ascii.eqb (PyStr.lower_char c) "." = Ascii.eqb c ".".
Proof. destruct c as [[] [] [] [] [] [] [] []]; vm_compute; reflexivity. Qed.

Lemma lower_rfind s : PyStr.rfind "." (PyStr.lower s) = PyStr.rfind "." s.
Proof.
  induction s as [|c s IH]; simpl; [reflexivity|].
  rewrite IH, lower_char_dot. reflexivity.
Qed.

Lemma lower_drop i : forall s, PyStr.lower (PyStr.drop i s) = PyStr.drop i (PyStr.lower s).
Proof. induction i as [|i IH]; intros [|c s]; simpl; auto. Qed.

Lemma lower_suffix s : PyStr.lower (PyStr.suffix s) = PyStr.suffix (PyStr.lower s).
Proof.
  unfold PyStr.suffix. rewrite lower_rfind, lower_length.
  destruct (PyStr.rfind "." s) as [i|]; [|reflexivity].
  destruct ((0 <? i) && (i <? String.length s - 1)); [|reflexivity].
  apply lower_drop.
Qed.

Lemma mem_in x l : PyStr.mem x l = true <-> In x l.
Proof.
  induction l as [|y l IH]; simpl; [split; [discriminate|tauto]|].
  rewrite orb_true_iff, IH, String.eqb_eq. split; intros [H|H]; auto.
Qed.

Lemma rfind_app c e i : forall s,
  PyStr.rfind c e = Some i -> PyStr.rfind c (s ++ e) = Some (String.length s + i).
Proof.
  induction s as [|a s IH]; simpl; intros H; [exact H|].
  rewrite (IH H). reflexivity.
Qed.

Lemma drop_app e : forall s, PyStr.drop (String.length s) (s ++ e) = e.
Proof. induction s as [|a s IH]; simpl; auto. Qed.

Lemma take_app e : forall s, PyStr.take (String.length s) (s ++ e) = s.
Proof. induction s as [|a s IH]; simpl; [destruct e; reflexivity|]. now rewrite IH. Qed.

Lemma take_drop i : forall s, (PyStr.take i s ++ PyStr.drop i s)%string = s.
Proof.
  induction i as [|i IH]; intros [|a s]; simpl; try reflexivity. now rewrite IH.
Qed.

Lemma take_length i : forall s,
  i <= String.length s -> String.length (PyStr.take i s) = i.
Proof.
  induction i as [|i IH]; intros [|a s]; simpl; intros H; try lia.
  rewrite IH; lia.
Qed.

Lemma app_length s t : String.length (s ++ t) = String.length s + String.length t.
Proof. induction s as [|a s IH]; simpl; congruence. Qed.

(** A non-empty stem followed by an extension: the extension is the
    suffix. *)
Lemma suffix_app stem e :
  stem <> "" -> PyStr.rfind "." e = Some 0 -> 2 <= String.length e ->
  PyStr.suffix (stem ++ e) = e.
Proof.
  intros Hs Hr Hl. unfold PyStr.suffix.
  rewrite (rfind_app _ _ _ stem Hr), app_length, Nat.add_0_r.
  assert (0 < String.length stem) by (destruct stem; simpl; [congruence|lia]).
  replace ((0 <? String.length stem)
           && (String.length stem <? String.length stem + String.length e - 1))
    with true.
  - apply drop_app.
  - symmetry. apply andb_true_iff. split; apply Nat.ltb_lt; lia.
Qed.

(** The suffix, when there is one, ends the name after a non-empty stem. *)
Lemma suffix_split name :
  PyStr.suffix name <> "" ->
  exists stem, stem <> "" /\ name = (stem ++ PyStr.suffix name)%string.
Proof.
  unfold PyStr.suffix. destruct (PyStr.rfind "." name) as [i|] eqn:R; [|congruence].
  destruct ((0 <? i) && (i <? String.length name - 1)) eqn:B; [|congruence].
  intros _. apply andb_true_iff in B as (B1 & B2).
  apply Nat.ltb_lt in B1. apply Nat.ltb_lt in B2.
  exists (PyStr.take i name). split.
  - intros E. assert (L := take_length i name). rewrite E in L. simpl in L. lia.
  - symmetry. apply take_drop.
Qed.

Lemma category_ext c e :
  In c categories -> In e (exts c) ->
  PyStr.rfind "." e = Some 0 /\ 2 <= String.length e.
Proof.
  intros Hc He. apply in_categories in Hc as [-> | [-> | [-> | ->]]];
    simpl in He; repeat (destruct He as [<-|He]; [vm_compute; split; [reflexivity|lia]|]);
    destruct He.
Qed.

(** X4: the extension test ignores ASCII letter case.  Two names that
    differ in letter case only ([Rock.PNG], [rock.png]) get the same
    verdict from every extension list. *)
Theorem extension_test_ignores_case exts x y :
  PyStr.lower x = PyStr.lower y ->
  recognized exts x = recognized exts y.
Proof.
  intros H. unfold recognized. rewrite !lower_suffix, H. reflexivity.
Qed.

Lemma extension_test_ignores_case_witness :
  recognized texture_exts "Rock.PNG" = recognized texture_exts "rock.png".
Proof.
  apply (extension_test_ignores_case texture_exts "Rock.PNG" "rock.png").
  vm_compute. reflexivity.
Defined.

(** X5: which names a category takes.  A name is recognised by a
    category exactly when it is a non-empty stem followed by one of the
    category's extensions in any letter case.  So a name that is an
    extension and nothing else ([.png]), and one whose extension is
    followed by something ([a.png.bak], [a.png.]), are passed over, and
    only the last extension counts ([a.tar.png] is a texture). *)
Theorem recognized_iff_stem_and_extension c name :
  In c categories ->
  (recognized (exts c) name = true
   <-> exists stem e, stem <> "" /\ name = (stem ++ e)%string
                      /\ In (PyStr.lower e) (exts c)).
Proof.
  intros Hc. unfold recognized. rewrite mem_in. split.
  - intros H. destruct (suffix_split name) as (stem & Hs & E).
    + intros E. rewrite E in H. simpl in H.
      destruct (category_ext c "" Hc H) as (R & _). discriminate.
    + exists stem, (PyStr.suffix name). auto.
  - intros (stem & e & Hs & -> & He).
    destruct (category_ext c _ Hc He) as (R & L).
    rewrite lower_rfind in R. rewrite lower_length in L.
    rewrite (suffix_app stem e Hs R L). exact He.
Qed.

Lemma recognized_iff_stem_and_extension_witness :
  recognized (exts textures) "a.tar.PNG" = true.
Proof.
  apply (proj2 (recognized_iff_stem_and_extension textures "a.tar.PNG"
                  (or_introl eq_refl))).
  exists "a.tar", ".PNG". split; [discriminate|]. split; [reflexivity|].
  simpl. auto.
Defined.

End Names.

(** ** The shader compiler's output files *)

Section ShaderOutputs.

Import FS Py CompileShaders.

Lemma removelast_snoc (A : Type) (l : list A) x : removelast (l ++ [x]) = l.
Proof. apply removelast_last. Qed.

Lemma name_snoc l x : name (l ++ [x]) = x.
Proof. unfold name. apply last_last. Qed.

Lemma with_suffix_snoc dir x new :
  with_suffix (dir ++ [x]) new = inr (dir ++ [PyStr.with_suffix x new]).
Proof.
  unfold with_suffix. rewrite removelast_snoc, name_snoc.
  destruct (dir ++ [x]) eqn:E; [|reflexivity].
  destruct dir; discriminate.
Qed.

Lemma output_file_snoc input output dir x :
  output_file input output (input ++ dir ++ [x])
  = inr (output ++ dir ++ [PyStr.with_suffix x ".spv"]).
Proof.
  unfold output_file. rewrite relative_to_app, with_suffix_snoc. reflexivity.
Qed.

(** [with_suffix] on a stem and an extension: the extension is replaced
    after a non-empty stem; alone, it is the whole name and has no
    suffix, so the new one is appended. *)
Lemma with_suffix_stem stem e new :
  PyStr.rfind "." e = Some 0 -> 2 <= String.length e ->
  PyStr.with_suffix (stem ++ e) new
  = ((if String.eqb stem "" then e else stem) ++ new)%string.
Proof.
  intros R L. unfold PyStr.with_suffix.
  destruct (String.eqb_spec stem "") as [->|Hs].
  - simpl. unfold PyStr.suffix. rewrite R. reflexivity.
  - rewrite (suffix_app stem e Hs R L).
    destruct e as [|a e]; [simpl in L; lia|].
    rewrite app_length, Nat.add_sub, take_app. reflexivity.
Qed.

Lemma shader_ext ext :
  In ext [".hlsl"; ".glsl"] ->
  PyStr.rfind "." ext = Some 0 /\ 2 <= String.length ext.
Proof.
  intros [<-|[<-|[]]]; vm_compute; (split; [reflexivity|lia]).
Qed.

(** X6: where a shader's output goes.  The output file of the shader
    [input_dir/dir/stem.hlsl] (or [.glsl]) is [output_dir/dir/stem.spv]:
    the directories below the input directory are kept, the extension
    is replaced, and no exception is raised.  A shader named by the
    extension alone ([.hlsl]) keeps its name and gets [.hlsl.spv]. *)
Theorem shader_output_mirrors_input input output dir stem ext :
  In ext [".hlsl"; ".glsl"] ->
  output_file input output (input ++ dir ++ [(stem ++ ext)%string])
  = inr (output ++ dir
         ++ [((if String.eqb stem "" then ext else stem) ++ ".spv")%string]).
Proof.
  intros He. destruct (shader_ext ext He) as (R & L).
  rewrite output_file_snoc, (with_suffix_stem stem ext ".spv" R L). reflexivity.
Qed.

Lemma shader_output_mirrors_input_witness :
  output_file ["shaders"] ["build"; "spv"] ["shaders"; "post"; "blur.hlsl"]
  = inr ["build"; "spv"; "post"; "blur.spv"].
Proof.
  apply (shader_output_mirrors_input ["shaders"] ["build"; "spv"] ["post"]
           "blur" ".hlsl").
  simpl. auto.
Defined.

(** X7: two shaders share one output file.  The HLSL and the GLSL
    shader of one stem in one directory ([blur.hlsl], [blur.glsl]) are
    given the same output file. *)
Theorem hlsl_and_glsl_share_output input output dir stem :
  stem <> "" ->
  output_file input output (input ++ dir ++ [(stem ++ ".hlsl")%string])
  = output_file input output (input ++ dir ++ [(stem ++ ".glsl")%string]).
Proof.
  intros Hs. rewrite !output_file_snoc.
  rewrite (with_suffix_stem stem ".hlsl" ".spv" eq_refl),
          (with_suffix_stem stem ".glsl" ".spv" eq_refl) by (simpl; lia).
  destruct (String.eqb_spec stem ""); [contradiction|reflexivity].
Qed.

Lemma hlsl_and_glsl_share_output_witness :
  output_file ["shaders"] ["out"] ["shaders"; "blur.hlsl"]
  = output_file ["shaders"] ["out"] ["shaders"; "blur.glsl"].
Proof.
  apply (hlsl_and_glsl_share_output ["shaders"] ["out"] [] "blur").
  discriminate.
Defined.

End ShaderOutputs.

(** ** The shader compiler and the file system *)

Section ShaderFiles.

Import FS Py CompileShaders Effects.

Lemma mkdir_parents_files p : forall n n',
  mkdir_parents p n = inr n' -> files_same n n'.
Proof.
  induction p as [|x p IH]; intros n n'; simpl.
  - destruct n; [discriminate|]. intros [= <-] q d. tauto.
  - destruct n as [b|es]; [discriminate|].
    destruct (mkdir_parents p _) as [e|c'] eqn:E; [discriminate|].
    intros [= <-] q d. destruct q as [|y q]; simpl; [split; discriminate|].
    destruct (String.eqb_spec y x) as [->|Hne].
    + rewrite assoc_set_same. rewrite (IH _ _ E q d).
      destruct (assoc x es) as [c|]; [tauto|].
      destruct q; simpl; split; discriminate.
    + rewrite assoc_set_other by congruence. tauto.
Qed.

Lemma mkdir_parents_kinds p : forall n n',
  mkdir_parents p n = inr n' -> forall q, is_dir q n = true -> is_dir q n' = true.
Proof.
  unfold is_dir.
  induction p as [|x p IH]; intros n n'; simpl.
  - destruct n; [discriminate|]. intros [= <-] q. tauto.
  - destruct n as [b|es]; [discriminate|].
    destruct (mkdir_parents p _) as [e|c'] eqn:E; [discriminate|].
    intros [= <-] q. destruct q as [|y q]; simpl; [reflexivity|].
    destruct (String.eqb_spec y x) as [->|Hne].
    + rewrite assoc_set_same.
      destruct (assoc x es) as [c|]; [|discriminate]. apply (IH _ _ E).
    + rewrite assoc_set_other by congruence. tauto.
Qed.

Lemma mkdir_parents_is_dir p : forall n n',
  mkdir_parents p n = inr n' -> is_dir p n' = true.
Proof.
  unfold is_dir.
  induction p as [|x p IH]; intros n n'; simpl.
  - destruct n; [discriminate|]. intros [= <-]. reflexivity.
  - destruct n as [b|es]; [discriminate|].
    destruct (mkdir_parents p _) as [e|c'] eqn:E; [discriminate|].
    intros [= <-]. simpl. rewrite assoc_set_same. apply (IH _ _ E).
Qed.

Lemma mkdir_parents_again p : forall n n',
  mkdir_parents p n = inr n' -> mkdir_parents p n' = inr n'.
Proof.
  induction p as [|x p IH]; intros n n'; simpl.
  - destruct n; [discriminate|]. intros [= <-]. reflexivity.
  - destruct n as [b|es]; [discriminate|].
    destruct (mkdir_parents p _) as [e|c'] eqn:E; [discriminate|].
    intros [= <-]. rewrite assoc_set_same, (IH _ _ E), set_set. reflexivity.
Qed.

Lemma mkdir_parents_exists p n n' q :
  mkdir_parents p n = inr n' -> exists_ q n = true -> exists_ q n' = true.
Proof.
  intros H. unfold exists_. destruct (lookup q n) as [[d|es]|] eqn:L; [| |discriminate].
  - apply (mkdir_parents_files _ _ _ H) in L. now rewrite L.
  - intros _. assert (D : is_dir q n = true) by (unfold is_dir; now rewrite L).
    apply (mkdir_parents_kinds _ _ _ H) in D. unfold is_dir in D.
    destruct (lookup q n') as [[|]|]; congruence.
Qed.

(** [mkdir(parents=True, exist_ok=True)] raises exactly when the path or
    one of its ancestors is a regular file. *)
Lemma mkdir_parents_raises p : forall n,
  (exists e, mkdir_parents p n = inl e)
  <-> (exists q r, p = q ++ r /\ is_file q n = true).
Proof.
  unfold is_file.
  induction p as [|x p IH]; intros n; simpl.
  - destruct n as [b|es]; split.
    + intros _. exists [], []. auto.
    + intros _. eauto.
    + intros (e & H). discriminate.
    + intros (q & r & E & F). symmetry in E. apply app_eq_nil in E as (-> & _).
      discriminate.
  - destruct n as [b|es]; split.
    + intros _. exists [], (x :: p). auto.
    + intros _. eauto.
    + intros (e & H).
      destruct (mkdir_parents p _) as [e'|c'] eqn:E; [|discriminate].
      destruct (proj1 (IH _) (ex_intro _ e' E)) as (q & r & -> & F).
      exists (x :: q), r. split; [reflexivity|]. simpl.
      destruct (assoc x es) as [c|]; [exact F|].
      destruct q; discriminate.
    + intros (q & r & E & F). destruct q as [|y q]; [discriminate|].
      simpl in E. injection E as -> ->. simpl in F.
      destruct (assoc y es) as [c|]; [|discriminate].
      destruct (proj2 (IH c) (ex_intro _ q (ex_intro _ r (conj eq_refl F)))) as (e & H).
      rewrite H. eauto.
Qed.

(** The three ways a run of the shader compiler ends. *)
Lemma run_cases input output root :
  (exists_ input root = false
   /\ run input output root
      = (mkState root
           ["Error: Input directory " ++ str input ++ " does not exist"]%string [] [],
         inr 1))
  \/ (exists_ input root = true
      /\ exists e, mkdir_parents output root = inl e
                   /\ run input output root = (start root, inl e))
  \/ (exists_ input root = true
      /\ exists n1, mkdir_parents output root = inr n1
                    /\ run input output root = (compiled input output n1, inr 0)).
Proof.
  destruct (exists_ input root) eqn:X.
  - right. destruct (mkdir_parents output root) as [e|n1] eqn:Mk.
    + left. split; [reflexivity|]. exists e. split; [reflexivity|].
      now apply run_raises.
    + right. split; [reflexivity|]. exists n1. split; [reflexivity|].
      now apply run_compiles.
  - left. split; [reflexivity|]. now apply run_missing.
Qed.

(** X8: the shader compiler writes no file.  However a run ends, the
    regular files of the file system and their bytes are those from
    before the run: no [.spv] file is created, no shader is changed or
    removed. *)
Theorem shader_run_writes_no_file input output root s r p d :
  run input output root = (s, r) ->
  lookup p (fs s) = Some (File d) <-> lookup p root = Some (File d).
Proof.
  intros H.
  destruct (run_cases input output root)
    as [(_ & E) | [(_ & e & _ & E) | (_ & n1 & Mk & E)]];
    rewrite E in H; injection H as <- <-; simpl; try tauto.
  apply (mkdir_parents_files _ _ _ Mk).
Qed.

Lemma shader_run_writes_no_file_witness :
  lookup ["shaders"; "post"; "blur.hlsl"]
         (fs (fst (run ["shaders"] ["out"] ShaderCases.project)))
  = Some (File (rw (Sample.bytes "float4 main()"))).
Proof.
  apply (proj2 (shader_run_writes_no_file ["shaders"] ["out"] ShaderCases.project
                  (fst (run ["shaders"] ["out"] ShaderCases.project))
                  (snd (run ["shaders"] ["out"] ShaderCases.project))
                  ["shaders"; "post"; "blur.hlsl"] (rw (Sample.bytes "float4 main()"))
                  ltac:(vm_compute; reflexivity))).
  vm_compute. reflexivity.
Defined.

(** X9: how a run of the shader compiler ends.  It ends with status 0
    exactly when the input path exists and neither the output path nor
    one of its ancestors is a regular file.  After a run that ended with
    status 0 the output path is a directory, its missing ancestors
    having been created with it. *)
Theorem shader_run_succeeds_iff input output root :
  ((exists s, run input output root = (s, inr 0))
   <-> (exists_ input root = true
        /\ forall q r, output = q ++ r -> is_file q root = false))
  /\ (forall s, run input output root = (s, inr 0) ->
                is_dir output (fs s) = true).
Proof.
  destruct (run_cases input output root)
    as [(X & E) | [(X & e & Mk & E) | (X & n1 & Mk & E)]]; rewrite E;
    (split; [split|]).
  - intros (s & H). discriminate.
  - intros (H & _). congruence.
  - intros s H. discriminate.
  - intros (s & H). discriminate.
  - intros (_ & H).
    destruct (proj1 (mkdir_parents_raises output root) (ex_intro _ e Mk))
      as (q & r & Eq & F).
    rewrite (H q r Eq) in F. discriminate.
  - intros s H. discriminate.
  - intros _. split; [exact X|]. intros q r Eq.
    destruct (is_file q root) eqn:F; [|reflexivity].
    destruct (proj2 (mkdir_parents_raises output root)
                (ex_intro _ q (ex_intro _ r (conj Eq F)))) as (e & H).
    congruence.
  - intros _. eauto.
  - intros s [= <-]. simpl. apply (mkdir_parents_is_dir _ _ _ Mk).
Qed.

(** X10: a second run repeats the first.  After a run of the shader
    compiler that ended with status 0, a run on the file system it left
    ends with status 0 too, prints the same lines and leaves the file
    system as it found it. *)
Theorem shader_second_run_same input output root s :
  run input output root = (s, inr 0) ->
  run input output (fs s) = (s, inr 0).
Proof.
  intros H.
  destruct (run_cases input output root)
    as [(_ & E) | [(_ & e & _ & E) | (X & n1 & Mk & E)]];
    rewrite E in H; try discriminate.
  injection H as <-. simpl. apply run_compiles.
  - apply (mkdir_parents_exists _ _ _ _ Mk X).
  - apply (mkdir_parents_again _ _ _ Mk).
Qed.

Lemma shader_second_run_same_witness :
  run ["shaders"] ["out"; "spv"]
      (fs (fst (run ["shaders"] ["out"; "spv"] ShaderCases.project)))
  = (fst (run ["shaders"] ["out"; "spv"] ShaderCases.project), inr 0).
Proof.
  apply (shader_second_run_same ["shaders"] ["out"; "spv"] ShaderCases.project
           (fst (run ["shaders"] ["out"; "spv"] ShaderCases.project))).
  vm_compute. reflexivity.
Defined.

End ShaderFiles.

(** ** Which shaders are found *)

Section Discovery.

Import FS Py CompileShaders Tree.

Lemma wf_dir_cons x c r :
  wf (Dir ((x, c) :: r)) = negb (PyStr.mem x (map fst r)) && wf c && wf (Dir r).
Proof. reflexivity. Qed.

Lemma wf_entries es :
  wf (Dir es) = true ->
  forall x c, In (x, c) es -> assoc x es = Some c /\ wf c = true.
Proof.
  induction es as [|[y m] r IH]; intros W x c; [intros []|].
  rewrite wf_dir_cons in W. apply andb_true_iff in W as (W & Wr).
  apply andb_true_iff in W as (Wy & Wm). intros [E|H].
  - injection E as -> ->. simpl. rewrite String.eqb_refl. auto.
  - destruct (IH Wr x c H) as (A & Wc). split; [|exact Wc].
    simpl. destruct (String.eqb_spec x y) as [->|Hne]; [|exact A].
    apply assoc_in in A. apply mem_in in A. rewrite A in Wy. discriminate.
Qed.

Lemma assoc_entry x es c : assoc x es = Some c -> In (x, c) es.
Proof.
  induction es as [|[y m] r IH]; simpl; [discriminate|].
  destruct (String.eqb_spec x y) as [->|Hne].
  - intros [= ->]. auto.
  - auto.
Qed.

Lemma wf_lookup p : forall n m, wf n = true -> lookup p n = Some m -> wf m = true.
Proof.
  induction p as [|x p IH]; intros n m W; simpl.
  - intros [= <-]. exact W.
  - destruct n as [d|es]; [discriminate|].
    destruct (assoc x es) as [c|] eqn:A; [|discriminate].
    apply IH. apply assoc_entry in A. apply (wf_entries es W x c A).
Qed.

Lemma name_below prefix rel : rel <> [] -> name (prefix ++ rel) = name rel.
Proof.
  intros H. unfold name. destruct (exists_last H) as (l & x & ->).
  rewrite app_assoc, !last_last. reflexivity.
Qed.

(** The sub-directories' part of the scan of a directory. *)
Lemma subdirs_in ext prefix p (l : list (string * node)) :
  In p ((fix subdirs (l : list (string * node)) : list path :=
           match l with
           | [] => []
           | (x, c) :: r => rglob_node ext (child prefix x) c ++ subdirs r
           end) l)
  <-> exists x c, In (x, c) l /\ In p (rglob_node ext (child prefix x) c).
Proof.
  induction l as [|[y m] r IH].
  - split; [intros []|intros (x & c & [] & _)].
  - rewrite in_app_iff, IH. split.
    + intros [H|(x & c & H & Hp)]; [exists y, m|exists x, c]; simpl; auto.
    + intros (x & c & [E|H] & Hp).
      * injection E as -> ->. auto.
      * right. eauto.
Qed.

Lemma rglob_node_dir ext prefix es p :
  In p (rglob_node ext prefix (Dir es))
  <-> (exists x c, In (x, c) es /\ PyStr.endswith x ext = true /\ p = child prefix x)
      \/ (exists x c, In (x, c) es /\ In p (rglob_node ext (child prefix x) c)).
Proof.
  simpl. rewrite in_app_iff, subdirs_in, in_map_iff.
  apply or_iff_compat_r. split.
  - intros ([x c] & <- & H). apply filter_In in H as (H & E). exists x, c. auto.
  - intros (x & c & H & E & ->). exists (x, c). split; [reflexivity|].
    apply filter_In. auto.
Qed.

(** What a recursive scan finds is an entry, at some depth, whose name
    ends with the extension. *)
Lemma rglob_node_found ext n : forall prefix p,
  In p (rglob_node ext prefix n) ->
  exists rel, rel <> [] /\ p = prefix ++ rel
              /\ PyStr.endswith (name rel) ext = true
              /\ (wf n = true -> exists_ rel n = true).
Proof.
  induction n as [d|es IH] using node_ind'; intros prefix p; [intros []|].
  rewrite rglob_node_dir. rewrite Forall_forall in IH.
  intros [(x & c & H & E & ->) | (x & c & H & Hp)].
  - exists [x]. repeat split; [discriminate|exact E|].
    intros W. destruct (wf_entries es W x c H) as (A & _).
    unfold exists_. simpl. rewrite A. reflexivity.
  - destruct (IH (x, c) H _ _ Hp) as (rel & Hrel & -> & E & X).
    exists (x :: rel). repeat split.
    + discriminate.
    + unfold child. rewrite <- app_assoc. reflexivity.
    + change (x :: rel) with ([x] ++ rel). rewrite (name_below [x] rel Hrel). exact E.
    + intros W. destruct (wf_entries es W x c H) as (A & Wc).
      unfold exists_. simpl. rewrite A. apply (X Wc).
Qed.

Lemma rglob_node_finds ext n : forall prefix rel,
  rel <> [] -> exists_ rel n = true -> PyStr.endswith (name rel) ext = true ->
  In (prefix ++ rel) (rglob_node ext prefix n).
Proof.
  induction n as [d|es IH] using node_ind'; intros prefix rel Hrel X E.
  - destruct rel; [congruence|discriminate].
  - rewrite rglob_node_dir. rewrite Forall_forall in IH.
    destruct rel as [|x rel]; [congruence|].
    unfold exists_ in X. simpl in X.
    destruct (assoc x es) as [c|] eqn:A; [|discriminate].
    apply assoc_entry in A. destruct rel as [|y rel].
    + left. exists x, c. auto.
    + right. exists x, c. split; [exact A|].
      replace (prefix ++ x :: y :: rel) with (child prefix x ++ y :: rel)
        by (unfold child; rewrite <- app_assoc; reflexivity).
      apply (IH (x, c) A); [discriminate|exact X|].
      change (x :: y :: rel) with ([x] ++ y :: rel) in E.
      rewrite (name_below [x] (y :: rel)) in E by discriminate. exact E.
Qed.

Lemma existsb_path p l : existsb (path_eqb p) l = true <-> In p l.
Proof.
  rewrite existsb_exists. unfold path_eqb. split.
  - intros (q & H & E). destruct (list_eq_dec string_dec p q); congruence.
  - intros H. exists p. split; [exact H|].
    destruct (list_eq_dec string_dec p p); congruence.
Qed.

Lemma in_unique l : forall yielded p,
  In p l -> In p yielded \/ In p (unique yielded l).
Proof.
  induction l as [|q l IH]; intros yielded p; simpl; [tauto|].
  destruct (existsb (path_eqb q) yielded) eqn:B.
  - apply existsb_path in B. intros [<-|H]; auto.
  - intros [<-|H]; [simpl; auto|].
    destruct (IH (q :: yielded) p H) as [[<-|H']|H']; simpl; auto.
Qed.

Lemma unique_fresh l : forall yielded p,
  In p (unique yielded l) -> ~ In p yielded.
Proof.
  induction l as [|q l IH]; intros yielded p; simpl; [tauto|].
  destruct (existsb (path_eqb q) yielded) eqn:B; [apply IH|].
  intros [<-|H].
  - intros H. apply existsb_path in H. congruence.
  - intros H'. apply (IH _ _ H). simpl. auto.
Qed.

Lemma unique_nodup l : forall yielded, NoDup (unique yielded l).
Proof.
  induction l as [|q l IH]; intros yielded; simpl; [constructor|].
  destruct (existsb (path_eqb q) yielded); [apply IH|].
  constructor; [|apply IH].
  intros H. apply unique_fresh in H. apply H. simpl. auto.
Qed.

Lemma rglob_iff ext input root p :
  wf root = true ->
  (In p (rglob ext input root)
   <-> exists rel, rel <> [] /\ p = input ++ rel /\ exists_ p root = true
                   /\ PyStr.endswith (name p) ext = true).
Proof.
  intros W. unfold rglob. destruct (lookup input root) as [n|] eqn:L; split.
  - intros H. apply unique_in in H.
    destruct (rglob_node_found _ _ _ _ H) as (rel & Hrel & -> & E & X).
    exists rel. repeat split; [exact Hrel| |].
    + unfold exists_ in *. rewrite lookup_app, L. apply X.
      apply (wf_lookup _ _ _ W L).
    + rewrite (name_below input rel Hrel). exact E.
  - intros (rel & Hrel & -> & X & E).
    unfold exists_ in X. rewrite lookup_app, L in X.
    rewrite (name_below input rel Hrel) in E.
    destruct (in_unique _ [] _ (rglob_node_finds ext n input rel Hrel X E))
      as [[]|H]; exact H.
  - intros [].
  - intros (rel & _ & -> & X & _). unfold exists_ in X.
    rewrite lookup_app, L in X. discriminate.
Qed.

Lemma rglob_ends ext input root p :
  In p (rglob ext input root) -> PyStr.endswith (name p) ext = true.
Proof.
  unfold rglob. destruct (lookup input root) as [n|]; [|intros []].
  intros H. apply unique_in in H.
  destruct (rglob_node_found _ _ _ _ H) as (rel & Hrel & -> & E & _).
  rewrite (name_below input rel Hrel). exact E.
Qed.

Lemma rglob_nodup ext input root : NoDup (rglob ext input root).
Proof.
  unfold rglob. destruct (lookup input root); [apply unique_nodup|constructor].
Qed.

(** X11: which shaders a run compiles.  In a file system whose
    directories have no two entries of one name, the shader files are
    exactly the entries at any depth below the input directory whose
    name ends with [.hlsl] or [.glsl], in these letters: the scan is
    recursive and case-sensitive, and it takes a directory of such a
    name as it takes a file. *)
Theorem shader_files_iff input root p :
  wf root = true ->
  (In p (shader_files input root)
   <-> exists rel, rel <> [] /\ p = input ++ rel /\ exists_ p root = true
                   /\ (PyStr.endswith (name p) ".hlsl" = true
                       \/ PyStr.endswith (name p) ".glsl" = true)).
Proof.
  intros W. unfold shader_files.
  rewrite in_app_iff, !(rglob_iff _ _ _ _ W). split.
  - intros [(rel & H1 & H2 & H3 & H4) | (rel & H1 & H2 & H3 & H4)];
      exists rel; auto.
  - intros (rel & H1 & H2 & H3 & [H4|H4]); [left|right]; exists rel; auto.
Qed.

Lemma shader_files_iff_witness :
  In ["shaders"; "post"; "blur.hlsl"] (shader_files ["shaders"] ShaderCases.project)
  /\ (In ["shaders"; "Sky.GLSL"] (shader_files ["shaders"] ShaderCases.project)
      -> False).
Proof.
  split.
  - apply (proj2 (shader_files_iff ["shaders"] ShaderCases.project
                    ["shaders"; "post"; "blur.hlsl"] eq_refl)).
    exists ["post"; "blur.hlsl"]. repeat split; [discriminate|]. left. reflexivity.
  - intros H.
    apply (proj1 (shader_files_iff ["shaders"] ShaderCases.project
                    ["shaders"; "Sky.GLSL"] eq_refl)) in H.
    destruct H as (_ & _ & _ & _ & [H|H]); vm_compute in H; discriminate.
Defined.

(** X12: no shader is compiled twice.  The list of shader files a run
    goes through holds no path twice, whatever the file system: the
    count in the summary line is a count of distinct paths. *)
Theorem shader_files_distinct input root :
  NoDup (shader_files input root).
Proof.
  unfold shader_files. apply NoDup_app.
  - apply rglob_nodup.
  - apply rglob_nodup.
  - intros p H1 H2. apply rglob_ends in H1. apply rglob_ends in H2.
    unfold PyStr.endswith in H1, H2.
    apply andb_true_iff in H1 as (H1 & _). apply andb_true_iff in H2 as (H2 & _).
    apply String.eqb_eq in H1. apply String.eqb_eq in H2.
    simpl String.length in H1, H2. rewrite H1 in H2. discriminate.
Qed.

End Discovery.

(** ** The rest of the output directory, and when a run completes *)

Section Outcome.

Import FS Py AssetProcessor Run Effects.

(** X13: what a run leaves alone in the output directory.  In a
    working directory of regular files and directories (no symbolic
    link, no file with a second hard link), however a run of the asset
    pipeline ends, an entry of [processed_assets] that is neither the
    manifest nor one of the four category directories (a file of the
    user's, the output of another tool) is as it was, with everything
    below it. *)
Theorem pipeline_keeps_other_output root s r y p :
  run root = (s, r) ->
  y <> "asset_manifest.json" ->
  (forall c, In c categories -> y <> subdir c) ->
  lookup ("processed_assets" :: y :: p) (fs s)
  = lookup ("processed_assets" :: y :: p) root.
Proof.
  intros H Hm Hc.
  change ((fun n n' => lookup ("processed_assets" :: y :: p) n'
                       = lookup ("processed_assets" :: y :: p) n) root (fs s)).
  revert H. apply run_keeps.
  - intros n. reflexivity.
  - intros a b c H1 H2. congruence.
  - intros n n' H. eapply mkdir_below; eauto.
  - intros c n n' Hin H. eapply mkdir_sibling; eauto.
  - intros c x q d n n' Hin _ H. eapply store_sibling; eauto.
  - intros d n n' H. unfold manifest_path in H. eapply store_sibling; eauto.
Qed.

Lemma pipeline_keeps_other_output_witness :
  lookup ["processed_assets"; "notes.txt"] (fs (fst (run Cases.interrupted)))
  = lookup ["processed_assets"; "notes.txt"] Cases.interrupted.
Proof.
  apply (pipeline_keeps_other_output Cases.interrupted
           (fst (run Cases.interrupted)) (snd (run Cases.interrupted))
           "notes.txt" []).
  - vm_compute. reflexivity.
  - discriminate.
  - intros c Hc. apply in_categories in Hc as [-> | [-> | [-> | ->]]]; discriminate.
Defined.

(** X14: when a first run completes.  In a working directory that has
    [assets] and no [processed_assets], the pipeline ends with status 0
    exactly when every entry of the four category directories that
    passes the extension test is a regular file.  A directory with an
    asset's name ([pack.png]) ends the run with an exception. *)
Theorem first_run_completes_iff root :
  exists_ ["assets"] root = true ->
  exists_ ["processed_assets"] root = false ->
  ((exists s, run root = (s, inr 0))
   <-> forall c x, In c categories -> In x (names c root) ->
                   is_file (src c x) root = true).
Proof.
  intros Ha Ho. split.
  - intros (s & H) c x Hc Hx.
    apply run_completed in H as (_ & Steps & (_ & _ & Cp & _) & _).
    rewrite <- (psteps_names _ _ c Steps) in Hx.
    destruct (Cp c x Hc Hx) as (d & L & _).
    unfold src in L. rewrite (psteps_frame _ _ _ Steps) in L.
    unfold is_file, src. rewrite L. reflexivity.
  - intros H. apply fresh_run_completes; assumption.
Qed.

Lemma first_run_completes_iff_witness :
  exists s, run Sample.two_assets = (s, inr 0).
Proof.
  apply (proj2 (first_run_completes_iff Sample.two_assets eq_refl eq_refl)).
  intros c x Hc Hx.
  apply in_categories in Hc as [-> | [-> | [-> | ->]]]; vm_compute in Hx;
    repeat (destruct Hx as [<-|Hx]; [reflexivity|]); destruct Hx.
Defined.

End Outcome.

(** ** The manifest is ASCII *)

Section ManifestText.

Import FS Json Py AssetProcessor Run Text.

Lemma ascii_only_app s t :
  ascii_only (s ++ t) = ascii_only s && ascii_only t.
Proof.
  induction s as [|c s IH]; simpl; [reflexivity|].
  rewrite IH, andb_assoc. reflexivity.
Qed.

Lemma escape_ascii c : ascii_only (escape c) = true.
Proof. destruct c as [[] [] [] [] [] [] [] []]; vm_compute; reflexivity. Qed.

Lemma escape_all_ascii s : ascii_only (escape_all s) = true.
Proof.
  induction s as [|c s IH]; simpl; [reflexivity|].
  rewrite ascii_only_app, escape_ascii, IH. reflexivity.
Qed.

Lemma encode_str_ascii s : ascii_only (encode_str s) = true.
Proof.
  unfold encode_str. simpl. rewrite ascii_only_app, escape_all_ascii. reflexivity.
Qed.

Lemma spaces_ascii n : ascii_only (spaces n) = true.
Proof. induction n as [|n IH]; simpl; auto. Qed.

Lemma newline_indent_ascii level : ascii_only (newline_indent level) = true.
Proof. unfold newline_indent. simpl ascii_only. apply spaces_ascii. Qed.

Lemma concat_ascii sep l :
  ascii_only sep = true -> Forall (fun s => ascii_only s = true) l ->
  ascii_only (String.concat sep l) = true.
Proof.
  intros Hsep H. induction H as [|s r Hs Hr IH]; [reflexivity|].
  simpl. destruct r as [|t r]; [exact Hs|].
  rewrite !ascii_only_app, Hs, Hsep, IH. reflexivity.
Qed.

Lemma block_ascii (open close : string) level items :
  ascii_only open = true -> ascii_only close = true ->
  Forall (fun s => ascii_only s = true) items ->
  ascii_only (open ++ newline_indent (S level)
              ++ String.concat ("," ++ newline_indent (S level)) items
              ++ newline_indent level ++ close) = true.
Proof.
  intros Ho Hc Hi.
  rewrite !ascii_only_app, Ho, Hc, !newline_indent_ascii, concat_ascii; auto.
  change (ascii_only ("," ++ newline_indent (S level)))
    with (ascii_only (newline_indent (S level))).
  apply newline_indent_ascii.
Qed.

Lemma encode_ascii j : forall level, ascii_only (encode level j) = true.
Proof.
  induction j as [s|l IH|l IH] using json_ind'; intros level.
  - apply encode_str_ascii.
  - destruct l as [|x l]; [reflexivity|].
    apply (block_ascii "[" "]" level (map (encode (S level)) (x :: l)));
      try reflexivity.
    apply Forall_map. revert IH. apply Forall_impl. auto.
  - destruct l as [|x l]; [reflexivity|].
    apply (block_ascii "{" "}" level
             (map (fun kv => encode_str (fst kv) ++ ": " ++ encode (S level) (snd kv))%string
                  (x :: l)));
      try reflexivity.
    apply Forall_map. revert IH. apply Forall_impl. intros kv H.
    rewrite !ascii_only_app, encode_str_ascii, H. reflexivity.
Qed.

Lemma byte_of_ascii_nat c : Byte.to_nat (byte_of_ascii c) = nat_of_ascii c.
Proof. destruct c as [[] [] [] [] [] [] [] []]; vm_compute; reflexivity. Qed.

Lemma ascii_bytes_of_string s :
  ascii_bytes (list_byte_of_string s) = ascii_only s.
Proof.
  induction s as [|c s IH]; [reflexivity|].
  change (ascii_bytes (list_byte_of_string (String c s)))
    with ((Byte.to_nat (byte_of_ascii c) <? 128)
          && ascii_bytes (list_byte_of_string s)).
  rewrite IH, byte_of_ascii_nat. reflexivity.
Qed.

(** X15: the manifest is an ASCII file.  The manifest a completed run
    leaves holds ASCII bytes only, whatever the names of the assets:
    [json.dump] writes a character outside ASCII as a [\u] escape. *)
Theorem manifest_file_is_ascii root s :
  run root = (s, inr 0) ->
  exists d, lookup manifest_path (fs s) = Some (File d)
            /\ ascii_bytes (data d) = true.
Proof.
  intros H. apply run_completed in H as (_ & _ & (_ & _ & _ & L) & _).
  exists (rw (manifest_text (entries (fs s)))). split; [exact L|].
  unfold manifest_text. cbn [data rw]. rewrite ascii_bytes_of_string. apply encode_ascii.
Qed.

Lemma manifest_file_is_ascii_witness :
  exists d, lookup manifest_path (fs (fst (run Cases.accented))) = Some (File d)
            /\ ascii_bytes (data d) = true.
Proof.
  apply (manifest_file_is_ascii Cases.accented (fst (run Cases.accented))).
  vm_compute. reflexivity.
Defined.

End ManifestText.
